(** * GRASS GIS notebooks: a model of the notebook code and its run

    The repository holds Jupyter notebooks (Python 2 kernel).  The code
    cells of the notebook on buffers, cost surfaces and least cost paths
    are a straight-line script of Python statements and IPython shell
    escapes ([!cmd] lines); the code cell of [07_next_steps] defines the
    [TestViewshedPoint] test class.

    The development has four parts:
    - [Py]: the Python/IPython fragment the cells are written in, with an
      interpreter over an explicit interpreter state, an external [world]
      answering every call that leaves the process, and a trace of the
      effects requested;
    - [Notebook]: the code cells of the buffers/cost-surface notebook;
    - [Mapcalc]: the raster algebra expressions handed to [r.mapcalc];
    - [Gunittest]: the example test class and its fixture cycle. *)

From Stdlib Require Import ZArith String Ascii List Bool Lia QArith.
From stdpp Require Import base gmap strings list pretty.

Set Warnings "-register-all".

Local Open Scope Z_scope.
Local Open Scope string_scope.

(** A double quote character, as a one-character string, and quoting. *)
Definition dquote : string := String "034"%char EmptyString.
Definition q (s : string) : string := dquote +:+ s +:+ dquote.

Module Py.

(** ** Syntax *)

Inductive binop := Add | Sub | Mult.

Inductive expr :=
| Num (n : Z)
| Str (s : string)
| Name (id : string)
| BinOp (l : expr) (op : binop) (r : expr)
| Attribute (e : expr) (attr : string)
| Subscript (e : expr) (index : expr)
| ListLit (elts : list expr)
| Call (func : expr) (args : list expr) (keywords : list (string * expr)).

Inductive stmt :=
| Import (module : string) (asname : option string)
| ImportFrom (module : string) (name : string)
| Assign (target : expr) (value : expr)
| Expr (e : expr)
| Print (values : list expr)
| Bang (line : string).

(** ** Values, exceptions, effects *)

Inductive value :=
| VNone
| VBool (b : bool)
| VInt (n : Z)
| VStr (s : string)
| VList (vs : list value)
| VTuple (vs : list value)
| VModule (name : string)
| VFunc (qualname : string)
| VEnviron
| VSysPath
| VMethod (self : value) (name : string)
| VImage (filename : string)
| VOpaque (descr : string).

Inductive exn :=
| NameError (id : string)
| AttributeError (attr : string)
| TypeError
| KeyError (key : string)
| ImportError (module : string)
| CalledProcessError
| ScriptError
| IOError (path : string)
| OSError (path : string).

(** What [grass.script.setup.init] hands back: the path of the session rc
    file it wrote and the environment variables it set. *)
Record session := { rc_path : string; env_updates : list (string * string) }.

Inductive event :=
| EvStdout (text : string)
| EvShell (cmd : string) (env : gmap string string) (status : Z)
| EvSubprocess (argv : list string) (env : gmap string string) (out : option string)
| EvSessionInit (gisbase dbase location mapset : string) (res : option session)
| EvDownload (url filename : string) (body : option string)
| EvReadFile (path : string) (ok : bool)
| EvRemove (path : string) (ok : bool)
| EvDisplay (v : value).

(** The interpreter state: the user namespace (name/value bindings, one
    per name), the process environment ([os.environ]), the module search
    path ([sys.path]) and the two module-level flags of
    [grass.script.core]. *)
Record state := {
  globals : list (string * value);
  environ : gmap string string;
  sys_path : list string;
  raise_on_error : bool;
  capture_stderr : bool
}.

(** Everything outside the process: whether a module is found on a
    search path, and the answer to each external call.  The first
    argument of an answer is the index of the statement that asks, so
    that the same call may be answered differently at different times. *)
Record world := {
  module_found : list string → string → bool;
  check_output_result : nat → list string → option string;
  init_result : nat → string → string → string → string → option session;
  urlretrieve_result : nat → string → option string;
  file_readable : nat → string → bool;
  remove_ok : nat → string → bool;
  system_status : nat → string → Z
}.

(** ** State updates *)

Fixpoint lookup_var (x : string) (g : list (string * value)) : option value :=
  match g with
  | [] => None
  | (y, v) :: g' => if String.eqb x y then Some v else lookup_var x g'
  end.

Fixpoint update_var (x : string) (v : value) (g : list (string * value))
  : list (string * value) :=
  match g with
  | [] => [(x, v)]
  | (y, u) :: g' => if String.eqb x y then (x, v) :: g' else (y, u) :: update_var x v g'
  end.

Definition set_global (x : string) (v : value) (st : state) : state :=
  {| globals := update_var x v (globals st); environ := environ st;
     sys_path := sys_path st; raise_on_error := raise_on_error st;
     capture_stderr := capture_stderr st |}.

Definition setenv (k v : string) (env : gmap string string) : gmap string string :=
  <[k := v]> env.

Definition set_environ (env : gmap string string) (st : state) : state :=
  {| globals := globals st; environ := env;
     sys_path := sys_path st; raise_on_error := raise_on_error st;
     capture_stderr := capture_stderr st |}.

Definition set_sys_path (p : list string) (st : state) : state :=
  {| globals := globals st; environ := environ st;
     sys_path := p; raise_on_error := raise_on_error st;
     capture_stderr := capture_stderr st |}.

Definition set_raise (b : bool) (st : state) : state :=
  {| globals := globals st; environ := environ st;
     sys_path := sys_path st; raise_on_error := b;
     capture_stderr := capture_stderr st |}.

Definition set_capture (b : bool) (st : state) : state :=
  {| globals := globals st; environ := environ st;
     sys_path := sys_path st; raise_on_error := raise_on_error st;
     capture_stderr := b |}.

Definition apply_updates (ups : list (string * string)) (env : gmap string string)
  : gmap string string :=
  fold_left (λ e kv, setenv kv.1 kv.2 e) ups env.

(** ** The state-and-exception monad with an effect trace *)

Inductive res (A : Type) :=
| Ok (a : A) (st : state) (tr : list event)
| Raised (e : exn) (st : state) (tr : list event).
Arguments Ok {A} a st tr.
Arguments Raised {A} e st tr.

Definition M (A : Type) : Type := state → res A.

Definition ret {A} (a : A) : M A := λ st, Ok a st [].
Definition raise {A} (e : exn) : M A := λ st, Raised e st [].
Definition emit (ev : event) : M unit := λ st, Ok tt st [ev].
Definition get : M state := λ st, Ok st st [].
Definition modify (f : state → state) : M unit := λ st, Ok tt (f st) [].

Definition bind {A B} (m : M A) (f : A → M B) : M B := λ st,
  match m st with
  | Ok a st1 tr1 =>
      match f a st1 with
      | Ok b st2 tr2 => Ok b st2 (tr1 ++ tr2)
      | Raised e st2 tr2 => Raised e st2 (tr1 ++ tr2)
      end
  | Raised e st1 tr1 => Raised e st1 tr1
  end.

Notation "x <- m ;; f" := (bind m (λ x, f))
  (at level 100, m at next level, right associativity).
Notation "m ;;; f" := (bind m (λ _, f))
  (at level 100, right associativity).

Definition mapM {A B} (f : A → M B) : list A → M (list B) :=
  fix go l :=
    match l with
    | [] => ret []
    | a :: l' => b <- f a ;; bs <- go l' ;; ret (b :: bs)
    end.

(** ** Library functions on strings *)

Definition is_space (c : ascii) : bool :=
  let n := nat_of_ascii c in
  (Nat.eqb n 32 || (Nat.leb 9 n && Nat.leb n 13))%bool.

Fixpoint lstrip (s : string) : string :=
  match s with
  | String c s' => if is_space c then lstrip s' else s
  | EmptyString => EmptyString
  end.

(** [rstrip] keeps a character when something other than white space
    follows it. *)
Fixpoint rstrip (s : string) : string :=
  match s with
  | String c s' =>
      match rstrip s' with
      | EmptyString => if is_space c then EmptyString else String c EmptyString
      | t => String c t
      end
  | EmptyString => EmptyString
  end.

(** [str.strip()] *)
Definition strip (s : string) : string := rstrip (lstrip s).

Definition starts_with_slash (s : string) : bool :=
  match s with String "/" _ => true | _ => false end.

Fixpoint ends_with_slash (s : string) : bool :=
  match s with
  | EmptyString => false
  | String c EmptyString => Ascii.eqb c "/"
  | String _ s' => ends_with_slash s'
  end.

(** [posixpath.join(a, *p)] *)
Definition join (a : string) (p : list string) : string :=
  fold_left (λ path b,
    if starts_with_slash b then b
    else if (String.eqb path "" || ends_with_slash path)%bool then path +:+ b
    else path +:+ "/" +:+ b) p a.

(** [str(v)] for the values that have a literal rendering. *)
Definition str (v : value) : string :=
  match v with
  | VNone => "None"
  | VBool true => "True"
  | VBool false => "False"
  | VInt n => pretty n
  | VStr s => s
  | _ => "<object>"
  end.

Fixpoint join_with (sep : string) (l : list string) : string :=
  match l with
  | [] => ""
  | [s] => s
  | s :: l' => s +:+ sep +:+ join_with sep l'
  end.

(** IPython expands [$name] in a shell line from the user namespace; a
    name that is not bound is left as written. *)
Definition is_ident_char (c : ascii) : bool :=
  let n := nat_of_ascii c in
  ((Nat.leb 48 n && Nat.leb n 57) || (Nat.leb 65 n && Nat.leb n 90)
   || (Nat.leb 97 n && Nat.leb n 122) || Nat.eqb n 95)%bool.

Definition flush_ident (g : list (string * value)) (ident : option string) : string :=
  match ident with
  | None => ""
  | Some "" => "$"
  | Some id => match lookup_var id g with Some v => str v | None => "$" +:+ id end
  end.

Fixpoint var_expand_go (g : list (string * value)) (s : string) (ident : option string)
  : string :=
  match s with
  | EmptyString => flush_ident g ident
  | String c s' =>
      match ident with
      | Some id =>
          if is_ident_char c
          then var_expand_go g s' (Some (id +:+ String c EmptyString))
          else flush_ident g ident +:+
               (if Ascii.eqb c "$" then var_expand_go g s' (Some "")
                else String c (var_expand_go g s' None))
      | None =>
          if Ascii.eqb c "$" then var_expand_go g s' (Some "")
          else String c (var_expand_go g s' None)
      end
  end.

Definition var_expand (g : list (string * value)) (line : string) : string :=
  var_expand_go g line None.

(** [import a.b] without [as] binds the top-level package [a]. *)
Fixpoint top_package (m : string) : string :=
  match m with
  | EmptyString => EmptyString
  | String c m' => if Ascii.eqb c "." then EmptyString else String c (top_package m')
  end.

(** ** Modules, attributes, builtins *)

(** The attributes of the library modules that the notebooks use. *)
Definition module_table : list (string * string * value) :=
  [ ("os", "environ", VEnviron);
    ("os", "path", VModule "os.path");
    ("os", "remove", VFunc "os.remove");
    ("os.path", "join", VFunc "os.path.join");
    ("sys", "path", VSysPath);
    ("subprocess", "check_output", VFunc "subprocess.check_output");
    ("urllib", "urlretrieve", VFunc "urllib.urlretrieve");
    ("grass.script", "set_raise_on_error", VFunc "grass.script.set_raise_on_error");
    ("grass.script", "set_capture_stderr", VFunc "grass.script.set_capture_stderr");
    ("grass.script.setup", "init", VFunc "grass.script.setup.init");
    ("IPython.display", "Image", VFunc "IPython.display.Image") ].

Fixpoint module_attr_in (tbl : list (string * string * value)) (m attr : string)
  : option value :=
  match tbl with
  | [] => None
  | (m', a', v) :: tbl' =>
      if (String.eqb m m' && String.eqb attr a')%bool then Some v
      else module_attr_in tbl' m attr
  end.

Definition module_attr : string → string → option value := module_attr_in module_table.

Definition builtin (id : string) : option value :=
  if String.eqb id "True" then Some (VBool true)
  else if String.eqb id "False" then Some (VBool false)
  else if String.eqb id "None" then Some VNone
  else None.

Definition lookup_name (id : string) : M value :=
  st <- get ;;
  match lookup_var id (globals st) with
  | Some v => ret v
  | None => match builtin id with Some v => ret v | None => raise (NameError id) end
  end.

Definition getattr (v : value) (attr : string) : M value :=
  match v with
  | VModule m =>
      match module_attr m attr with
      | Some a => ret a
      | None => raise (AttributeError attr)
      end
  | VStr s => if String.eqb attr "strip" then ret (VMethod v attr) else raise (AttributeError attr)
  | VSysPath => if String.eqb attr "append" then ret (VMethod v attr) else raise (AttributeError attr)
  | _ => raise (AttributeError attr)
  end.

Definition getitem (c k : value) : M value :=
  match c, k with
  | VEnviron, VStr key =>
      st <- get ;;
      match environ st !! key with
      | Some s => ret (VStr s)
      | None => raise (KeyError key)
      end
  | _, _ => raise TypeError
  end.

Definition arith (op : binop) (a b : value) : M value :=
  match a, b with
  | VInt x, VInt y =>
      ret (VInt match op with Add => x + y | Sub => x - y | Mult => x * y end)
  | _, _ => raise TypeError
  end.

Fixpoint strings_of (vs : list value) : option (list string) :=
  match vs with
  | [] => Some []
  | VStr s :: vs' => match strings_of vs' with Some l => Some (s :: l) | None => None end
  | _ :: _ => None
  end.

(** ** Calls *)

Section Interp.
Variable w : world.
Variable pc : nat.

Definition check_output (args : list value) : M value :=
  match args with
  | [VList argv] =>
      match strings_of argv with
      | Some l =>
          st <- get ;;
          let out := check_output_result w pc l in
          emit (EvSubprocess l (environ st) out) ;;;
          match out with
          | Some s => ret (VStr s)
          | None => raise CalledProcessError
          end
      | None => raise TypeError
      end
  | _ => raise TypeError
  end.

Definition init (args : list value) : M value :=
  match args with
  | [VStr gisbase; VStr dbase; VStr location; VStr mapset] =>
      let r := init_result w pc gisbase dbase location mapset in
      emit (EvSessionInit gisbase dbase location mapset r) ;;;
      match r with
      | Some s =>
          modify (λ st, set_environ (apply_updates (env_updates s) (environ st)) st) ;;;
          ret (VStr (rc_path s))
      | None => raise ScriptError
      end
  | _ => raise TypeError
  end.

Definition urlretrieve (args : list value) : M value :=
  match args with
  | [VStr url; VStr filename] =>
      let r := urlretrieve_result w pc url in
      emit (EvDownload url filename r) ;;;
      match r with
      | Some _ => ret (VTuple [VStr filename; VOpaque "httplib.HTTPMessage"])
      | None => raise (IOError url)
      end
  | _ => raise TypeError
  end.

Definition remove (args : list value) : M value :=
  match args with
  | [VStr path] =>
      let ok := remove_ok w pc path in
      emit (EvRemove path ok) ;;;
      if ok then ret VNone else raise (OSError path)
  | _ => raise TypeError
  end.

(** [IPython.display.Image(filename=...)] reads the file when the object
    is built. *)
Definition Image (args : list value) (kw : list (string * value)) : M value :=
  match args, kw with
  | [], [(k, VStr filename)] =>
      if String.eqb k "filename" then
        let ok := file_readable w pc filename in
        emit (EvReadFile filename ok) ;;;
        if ok then ret (VImage filename) else raise (IOError filename)
      else raise TypeError
  | _, _ => raise TypeError
  end.

(** Both setters of [grass.script.core] return the previous value. *)
Definition set_raise_on_error (args : list value) : M value :=
  match args with
  | [VBool b] => st <- get ;; modify (set_raise b) ;;; ret (VBool (raise_on_error st))
  | _ => raise TypeError
  end.

Definition set_capture_stderr (args : list value) : M value :=
  match args with
  | [VBool b] => st <- get ;; modify (set_capture b) ;;; ret (VBool (capture_stderr st))
  | _ => raise TypeError
  end.

Definition path_join (args : list value) : M value :=
  match strings_of args with
  | Some (a :: p) => ret (VStr (join a p))
  | _ => raise TypeError
  end.

Definition call_func (qualname : string) (args : list value) (kw : list (string * value))
  : M value :=
  if String.eqb qualname "IPython.display.Image" then Image args kw
  else match kw with
  | _ :: _ => raise TypeError
  | [] =>
    if String.eqb qualname "subprocess.check_output" then check_output args
    else if String.eqb qualname "grass.script.setup.init" then init args
    else if String.eqb qualname "urllib.urlretrieve" then urlretrieve args
    else if String.eqb qualname "os.remove" then remove args
    else if String.eqb qualname "os.path.join" then path_join args
    else if String.eqb qualname "grass.script.set_raise_on_error" then set_raise_on_error args
    else if String.eqb qualname "grass.script.set_capture_stderr" then set_capture_stderr args
    else raise TypeError
  end.

Definition call_method (self : value) (name : string) (args : list value)
  (kw : list (string * value)) : M value :=
  match self, args, kw with
  | VStr s, [], [] => if String.eqb name "strip" then ret (VStr (strip s)) else raise TypeError
  | VSysPath, [VStr p], [] =>
      if String.eqb name "append"
      then modify (λ st, set_sys_path (sys_path st ++ [p]) st) ;;; ret VNone
      else raise TypeError
  | _, _, _ => raise TypeError
  end.

Definition call (f : value) (args : list value) (kw : list (string * value)) : M value :=
  match f with
  | VFunc qualname => call_func qualname args kw
  | VMethod self name => call_method self name args kw
  | _ => raise TypeError
  end.

(** ** Expressions and statements *)

Fixpoint eval (e : expr) : M value :=
  match e with
  | Num n => ret (VInt n)
  | Str s => ret (VStr s)
  | Name id => lookup_name id
  | BinOp l op r => a <- eval l ;; b <- eval r ;; arith op a b
  | Attribute e' attr => v <- eval e' ;; getattr v attr
  | Subscript e' index => c <- eval e' ;; k <- eval index ;; getitem c k
  | ListLit elts => vs <- mapM eval elts ;; ret (VList vs)
  | Call func args keywords =>
      f <- eval func ;;
      vs <- mapM eval args ;;
      kvs <- mapM (λ ke : string * expr, v <- eval ke.2 ;; ret (ke.1, v)) keywords ;;
      call f vs kvs
  end.

Definition assign (target : expr) (v : value) : M unit :=
  match target with
  | Name id => modify (set_global id v)
  | Subscript e index =>
      c <- eval e ;;
      k <- eval index ;;
      match c, k, v with
      | VEnviron, VStr key, VStr s => modify (λ st, set_environ (setenv key s (environ st)) st)
      | _, _, _ => raise TypeError
      end
  | _ => raise TypeError
  end.

(** The value of a cell's last expression is shown unless it is [None]. *)
Definition display (v : value) : M unit :=
  match v with
  | VNone => ret tt
  | _ => emit (EvDisplay v)
  end.

(** A shell escape runs the expanded line in a subshell with the current
    environment and stores the exit status in [_exit_code]; the status
    is not inspected. *)
Definition system (line : string) : M unit :=
  st <- get ;;
  let cmd := var_expand (globals st) line in
  let status := system_status w pc cmd in
  emit (EvShell cmd (environ st) status) ;;;
  modify (set_global "_exit_code" (VInt status)).

Definition exec_stmt (interactive : bool) (s : stmt) : M unit :=
  match s with
  | Import m asname =>
      st <- get ;;
      if module_found w (sys_path st) m then
        match asname with
        | Some n => modify (set_global n (VModule m))
        | None => modify (set_global (top_package m) (VModule (top_package m)))
        end
      else raise (ImportError m)
  | ImportFrom m name =>
      st <- get ;;
      if module_found w (sys_path st) m then
        match module_attr m name with
        | Some v => modify (set_global name v)
        | None => raise (ImportError name)
        end
      else raise (ImportError m)
  | Assign target value => v <- eval value ;; assign target v
  | Expr e => v <- eval e ;; if interactive then display v else ret tt
  | Print values =>
      vs <- mapM eval values ;;
      emit (EvStdout (join_with " " (map str vs)))
  | Bang line => system line
  end.

End Interp.

(** ** Running a notebook *)

Record run_result := {
  executed : list nat;
  trace : list (nat * event);
  final : state;
  raised : option (nat * exn)
}.

(** Statements paired with the flag "is the last statement of its cell". *)
Fixpoint mark_last (body : list stmt) : list (bool * stmt) :=
  match body with
  | [] => []
  | [s] => [(true, s)]
  | s :: body' => (false, s) :: mark_last body'
  end.

Definition flatten (cells : list (list stmt)) : list (bool * stmt) :=
  concat (map mark_last cells).

(** Run All: statements in order; an exception ends the run. *)
Fixpoint run_from (w : world) (pc : nat) (prog : list (bool * stmt)) (st : state)
  : run_result :=
  match prog with
  | [] => {| executed := []; trace := []; final := st; raised := None |}
  | (last, s) :: rest =>
      match exec_stmt w pc last s st with
      | Ok _ st' tr =>
          let r := run_from w (S pc) rest st' in
          {| executed := pc :: executed r;
             trace := map (pair pc) tr ++ trace r;
             final := final r;
             raised := raised r |}
      | Raised e st' tr =>
          {| executed := [pc]; trace := map (pair pc) tr; final := st';
             raised := Some (pc, e) |}
      end
  end.


(** A freshly started kernel. *)
Definition fresh (env0 : gmap string string) (path0 : list string) : state :=
  {| globals := []; environ := env0; sys_path := path0;
     raise_on_error := false; capture_stderr := false |}.

(** ** Observing a run *)

Definition events {A} (r : res A) : list event :=
  match r with Ok _ _ t => t | Raised _ _ t => t end.

Definition post {A} (r : res A) : state :=
  match r with Ok _ st _ => st | Raised _ st _ => st end.

Definition is_ok {A} (r : res A) : bool :=
  match r with Ok _ _ _ => true | Raised _ _ _ => false end.

(** A call made through a Python function that came back with a failure. *)
Definition call_failed (ev : event) : bool :=
  match ev with
  | EvSubprocess _ _ None => true
  | EvSessionInit _ _ _ _ None => true
  | EvDownload _ _ None => true
  | EvReadFile _ false => true
  | EvRemove _ false => true
  | _ => false
  end.

Definition is_shell (ev : event) : bool :=
  match ev with EvShell _ _ _ => true | _ => false end.


(** Calls that leave the process: commands, session start, downloads,
    file reads and removals. *)
Definition is_external_call (ev : event) : bool :=
  match ev with
  | EvShell _ _ _ | EvSubprocess _ _ _ | EvSessionInit _ _ _ _ _
  | EvDownload _ _ _ | EvReadFile _ _ | EvRemove _ _ => true
  | EvStdout _ | EvDisplay _ => false
  end.

(** An event without the parts the world decides. *)
Inductive ekind :=
| KStdout (text : string)
| KShell (cmd : string)
| KSubprocess (argv : list string)
| KSessionInit (dbase location mapset : string)
| KDownload (url filename : string)
| KReadFile (path : string)
| KRemove
| KDisplay (v : value).

Definition kind_of (ev : event) : ekind :=
  match ev with
  | EvStdout text => KStdout text
  | EvShell cmd _ _ => KShell cmd
  | EvSubprocess argv _ _ => KSubprocess argv
  | EvSessionInit _ dbase location mapset _ => KSessionInit dbase location mapset
  | EvDownload url filename _ => KDownload url filename
  | EvReadFile path _ => KReadFile path
  | EvRemove _ _ => KRemove
  | EvDisplay v => KDisplay v
  end.

(** [run_sat Q w pc prog st]: every statement that the run executes
    satisfies [Q] (index, state before, result). *)
Fixpoint run_sat (Q : nat → state → res unit → Prop) (w : world) (pc : nat)
  (prog : list (bool * stmt)) (st : state) : Prop :=
  match prog with
  | [] => True
  | (last, s) :: rest =>
      Q pc st (exec_stmt w pc last s st) ∧
      match exec_stmt w pc last s st with
      | Ok _ st' _ => run_sat Q w (S pc) rest st'
      | Raised _ _ _ => True
      end
  end.

End Py.

(** * The buffers and cost-surfaces notebook *)

Module Notebook.
Import Py.

(** Recurring statement forms of the cells. *)

(** [os.environ['k'] = v] *)
Definition environ_set (k : string) (v : expr) : stmt :=
  Assign (Subscript (Attribute (Name "os") "environ") (Str k)) v.

(** [urllib.urlretrieve(url, filename)] *)
Definition download (url filename : string) : stmt :=
  Expr (Call (Attribute (Name "urllib") "urlretrieve") [Str url; Str filename] []).

(** [Image(filename=f)] *)
Definition show_image (f : string) : stmt :=
  Expr (Call (Name "Image") [] [("filename", Str f)]).

Definition data_url (name : string) : string :=
  "http://ncsu-geoforall-lab.github.io/geospatial-modeling-course/grass/data/" +:+ name.

(** The code cells, top to bottom.  The number in front of a statement is
    its index in the run. *)

Definition cell_demo : list stmt :=
  [
    (*   0 *) Assign (Name "a") (Num 6);
    (*   1 *) Assign (Name "b") (Num 7);
    (*   2 *) Assign (Name "c") (BinOp (Name "a") Mult (Name "b"));
    (*   3 *) Print [Str "Answer is"; Name "c"];
    (*   4 *) Bang ("echo " +:+ q "Answer is $c")
  ].

Definition cell_bootstrap : list stmt :=
  [
    (*   5 *) Import "os" None;
    (*   6 *) Import "sys" None;
    (*   7 *) Import "subprocess" None;
    (*   8 *) ImportFrom "IPython.display" "Image";
    (*   9 *) Assign (Name "gisbase")
      (Call (Attribute
         (Call (Attribute (Name "subprocess") "check_output")
            [ListLit [Str "grass"; Str "--config"; Str "path"]] [])
         "strip") [] []);
    (*  10 *) environ_set "GISBASE" (Name "gisbase");
    (*  11 *) Expr (Call (Attribute (Attribute (Name "sys") "path") "append")
      [Call (Attribute (Attribute (Name "os") "path") "join")
         [Name "gisbase"; Str "etc"; Str "python"] []] []);
    (*  12 *) Import "grass.script" (Some "gs");
    (*  13 *) Import "grass.script.setup" (Some "gsetup");
    (*  14 *) Assign (Name "rcfile")
      (Call (Attribute (Name "gsetup") "init")
         [Name "gisbase"; Str "/home/main/grassdata"; Str "nc_spm_08_grass7"; Str "user1"] [])
  ].

Definition cell_overwrite : list stmt :=
  [
    (*  15 *) environ_set "GRASS_FONT" (Str "sans");
    (*  16 *) environ_set "GRASS_OVERWRITE" (Str "1");
    (*  17 *) Expr (Call (Attribute (Name "gs") "set_raise_on_error") [Name "True"] []);
    (*  18 *) Expr (Call (Attribute (Name "gs") "set_capture_stderr") [Name "True"] [])
  ].

Definition cell_render : list stmt :=
  [
    (*  19 *) environ_set "GRASS_RENDER_IMMEDIATE" (Str "cairo");
    (*  20 *) environ_set "GRASS_RENDER_FILE_READ" (Str "TRUE");
    (*  21 *) environ_set "GRASS_LEGEND_FILE" (Str "legend.txt")
  ].

Definition cell_download : list stmt :=
  [
    (*  22 *) Import "urllib" None;
    (*  23 *) download (data_url "noise_cats.txt") "noise_cats.txt";
    (*  24 *) download (data_url "friction_rules.txt") "friction_rules.txt";
    (*  25 *) download (data_url "friction_color.txt") "friction_color.txt";
    (*  26 *) download (data_url "fire_pt.txt") "fire_pt.txt";
    (*  27 *) download (data_url "lostperson.txt") "lostperson.txt";
    (*  28 *) download (data_url "noise_cats.txt") "noise_cats.txt";
    (*  29 *) download (data_url "fire_pt.txt") "fire_pt.txt";
    (*  30 *) download (data_url "friction_rules.txt") "friction_rules.txt";
    (*  31 *) download (data_url "lostperson.txt") "lostperson.txt"
  ].

Definition cell_lake_buffers : list stmt :=
  [
    (*  32 *) Bang "g.region swwake_30m -p";
    (*  33 *) Bang "r.buffer lakes output=lakes_buff distances=60,120,240,500";
    (*  34 *) Bang "d.rast lakes_buff";
    (*  35 *) show_image "map.png"
  ].

Definition cell_developed_lake : list stmt :=
  [
    (*  36 *) Bang "r.category landuse96_28m";
    (*  37 *) Bang ("r.mapcalc " +:+ q "developed_lake = if(landuse96_28m==1 || landuse96_28m==2, lakes_buff, null())");
    (*  38 *) Bang "r.support developed_lake raster=lakes_buff"
  ].

Definition cell_show_developed_lake : list stmt :=
  [
    (*  39 *) Bang "d.rast developed_lake";
    (*  40 *) Bang "d.vect streets_wake color=grey";
    (*  41 *) Bang "d.rast lakes";
    (*  42 *) Bang "d.legend -c developed_lake use=2,3,4,5 at=5,25,2,5";
    (*  43 *) show_image "map.png"
  ].

Definition cell_report_lake : list stmt :=
  [
    (*  44 *) Bang "r.report -n lakes_buff units=h";
    (*  45 *) Bang "r.report -n developed_lake units=h"
  ].

Definition cell_noise : list stmt :=
  [
    (*  46 *) Bang "g.region raster=landuse96_28m -p";
    (*  47 *) Bang "r.buffer roadsmajor output=roads_buffers distances=250,500,2500";
    (*  48 *) Bang ("r.mapcalc " +:+ q "noise = if(landuse96_28m==1 || landuse96_28m==2, roads_buffers, null())");
    (*  49 *) Bang "r.colors noise color=ryg";
    (*  50 *) Bang "r.category noise rules=noise_cats.txt separator=:";
    (*  51 *) Bang "r.report -n noise units=p,h"
  ].

Definition cell_show_noise : list stmt :=
  [
    (*  52 *) Bang "d.rast noise";
    (*  53 *) Bang "d.vect streets_wake";
    (*  54 *) Bang "d.legend -c noise at=5,25,2,5";
    (*  55 *) show_image "map.png"
  ].

Definition cell_schools_noise : list stmt :=
  [
    (*  56 *) Bang "v.to.rast schools_wake output=schoolscap_10m use=attr attrcolumn=CORECAPACI type=point";
    (*  57 *) Bang ("r.mapcalc " +:+ q "schools_noise = if(int(schoolscap_10m) && roads_buffers == 2, int(schoolscap_10m), null())");
    (*  58 *) Bang "r.univar schools_noise";
    (*  59 *) Bang "r.to.vect schools_noise output=schools_noise type=point";
    (*  60 *) Bang "d.vect schools_wake icon=basic/circle size=10 fill_color=blue";
    (*  61 *) Bang "d.vect schools_noise size=14 fill_color=cyan icon=basic/circle color=black";
    (*  62 *) show_image "map.png"
  ].

Definition cell_streets_speed : list stmt :=
  [
    (*  63 *) Bang "g.region swwake_30m -p";
    (*  64 *) Bang "v.info -c streets_wake";
    (*  65 *) Bang "v.to.rast streets_wake output=streets_speedtmp use=attr attrcolumn=SPEED type=line";
    (*  66 *) Bang ("r.mapcalc " +:+ q "streets_speed = if(isnull(streets_speedtmp),5,streets_speedtmp)");
    (*  67 *) Bang "r.info streets_speed";
    (*  68 *) Bang "r.colors streets_speed color=gyr";
    (*  69 *) Bang "d.rast streets_speed";
    (*  70 *) Bang "d.legend streets_speed at=5,40,2,5 use=5,25,35,45,65";
    (*  71 *) show_image "map.png"
  ].

Definition cell_streets_travtime : list stmt :=
  [
    (*  72 *) Bang ("r.mapcalc " +:+ q "streets_travtime = 0.018641/streets_speed");
    (*  73 *) Bang "r.cost -k streets_travtime output=streets_cost start_coordinates=634886,224328"
  ].

Definition cell_fire_pt : list stmt :=
  [
    (*  74 *) Bang "v.in.ascii input=fire_pt.txt output=fire_pt separator=space"
  ].

Definition cell_show_streets_cost : list stmt :=
  [
    (*  75 *) Bang "r.contour streets_cost output=streets_cost_04 step=0.04";
    (*  76 *) Bang "r.colors streets_cost color=elevation";
    (*  77 *) Bang "d.rast streets_cost";
    (*  78 *) Bang "d.vect fire_pt color=red icon=basic/marker size=20";
    (*  79 *) Bang "d.vect streets_cost_04";
    (*  80 *) Bang "d.legend streets_cost at=5,50,2,5";
    (*  81 *) show_image "map.png"
  ].

Definition cell_firestations : list stmt :=
  [
    (*  82 *) Bang "g.copy vector=firestations,myfirestations";
    (*  83 *) Bang "v.info -c myfirestations";
    (*  84 *) Bang "v.what.rast myfirestations raster=streets_cost column=CVLAG"
  ].

Definition cell_export_firestations : list stmt :=
  [
    (*  85 *) Bang ("v.out.ascii input=myfirestations separator=space precision=3 columns=ID,LOCATION,CVLAG where=" +:+ q "CVLAG<0.1 AND CVLAG>0")
  ].

Definition cell_routes : list stmt :=
  [
    (*  86 *) Bang "r.drain -n input=streets_cost output=route_20Westernb start_coordinates=635940.3,225912.8";
    (*  87 *) Bang "r.drain -n input=streets_cost output=route_52Hollyb start_coordinates=633178.2,221353.0";
    (*  88 *) Bang "r.colors route_20Westernb color=grey";
    (*  89 *) Bang "r.colors route_52Hollyb color=grey"
  ].

Definition cell_show_routes : list stmt :=
  [
    (*  90 *) Bang "d.erase";
    (*  91 *) Bang "d.rast streets_cost";
    (*  92 *) Bang "d.vect fire_pt color=red icon=basic/marker size=20";
    (*  93 *) Bang "d.rast route_20Westernb";
    (*  94 *) Bang "d.rast route_52Hollyb";
    (*  95 *) show_image "map.png"
  ].

Definition cell_describe_routes : list stmt :=
  [
    (*  96 *) Bang "r.describe route_20Westernb";
    (*  97 *) Bang "r.describe route_52Hollyb"
  ].

Definition cell_landclass : list stmt :=
  [
    (*  98 *) Bang "g.region swwake_30m -p";
    (*  99 *) Bang "r.category landclass96"
  ].

Definition cell_friction : list stmt :=
  [
    (* 100 *) Bang "r.recode landclass96 out=friction rules=friction_rules.txt"
  ].

Definition cell_friction2 : list stmt :=
  [
    (* 101 *) Bang ("r.mapcalc " +:+ q "friction2 = if(streets_speed > 6, 0.1, friction)");
    (* 102 *) Bang "r.colors friction2 rules=friction_color.txt";
    (* 103 *) Bang "d.erase";
    (* 104 *) Bang "d.rast friction2";
    (* 105 *) Bang "d.legend friction2 at=5,50,2,5";
    (* 106 *) show_image "map.png"
  ].

Definition cell_walkcost : list stmt :=
  [
    (* 107 *) Bang "r.walk -k elevation=elev_ned_30m friction=friction2 output=walkcost start_coordinates=635576,216485 lambda=0.5 max_cost=10000";
    (* 108 *) Bang "r.contour walkcost output=walkcost step=1000"
  ].

Definition cell_lostperson : list stmt :=
  [
    (* 109 *) Bang "v.in.ascii input=lostperson.txt output=lostperson separator=comma"
  ].

Definition cell_show_walkcost : list stmt :=
  [
    (* 110 *) Bang "d.erase";
    (* 111 *) Bang "d.rast lakes";
    (* 112 *) Bang "d.rast walkcost";
    (* 113 *) Bang "d.vect streets_wake";
    (* 114 *) Bang "d.vect walkcost color=brown";
    (* 115 *) Bang "d.vect walkcost color=red where=level=6000 width=2";
    (* 116 *) Bang "d.vect lostperson size=20 color=black fill_color=black icon=basic/marker";
    (* 117 *) Bang "d.legend walkcost at=5,50,2,5";
    (* 118 *) show_image "map.png"
  ].

Definition cell_roadsmajor_raster : list stmt :=
  [
    (* 119 *) Bang "g.region swwake_30m -p";
    (* 120 *) Bang "v.to.rast roadsmajor output=roadsmajor use=val type=line"
  ].

Definition cell_dist_toroad : list stmt :=
  [
    (* 121 *) Bang ("r.mapcalc " +:+ q "area_one = 1");
    (* 122 *) Bang "r.cost input=area_one output=dist_toroad start_rast=roadsmajor";
    (* 123 *) Bang ("r.mapcalc " +:+ q "dist_meters = dist_toroad * (ewres() + nsres())/2.");
    (* 124 *) Bang ("r.mapcalc " +:+ q "dist_class = int(dist_meters/500)");
    (* 125 *) Bang "d.erase";
    (* 126 *) Bang "d.rast dist_class";
    (* 127 *) Bang "d.vect roadsmajor";
    (* 128 *) show_image "map.png";
    (* 129 *) Bang "d.vect streets_wake color=black";
    (* 130 *) Bang "d.vect roadsmajor color=red";
    (* 131 *) show_image "map.png"
  ].

Definition cell_teardown : list stmt :=
  [
    (* 132 *) Expr (Call (Attribute (Name "os") "remove") [Name "rcfile"] [])
  ].

Definition cells : list (list stmt) :=
  [ cell_demo;
    cell_bootstrap;
    cell_overwrite;
    cell_render;
    cell_download;
    cell_lake_buffers;
    cell_developed_lake;
    cell_show_developed_lake;
    cell_report_lake;
    cell_noise;
    cell_show_noise;
    cell_schools_noise;
    cell_streets_speed;
    cell_streets_travtime;
    cell_fire_pt;
    cell_show_streets_cost;
    cell_firestations;
    cell_export_firestations;
    cell_routes;
    cell_show_routes;
    cell_describe_routes;
    cell_landclass;
    cell_friction;
    cell_friction2;
    cell_walkcost;
    cell_lostperson;
    cell_show_walkcost;
    cell_roadsmajor_raster;
    cell_dist_toroad;
    cell_teardown ].

Definition program : list (bool * stmt) := flatten cells.

(** Run All from a fresh kernel. *)
Definition run (w : world) (env0 : gmap string string) (path0 : list string)
  : run_result :=
  run_from w 0 program (fresh env0 path0).

(** A world in which every call succeeds: the installation is found, the
    session starts, every download arrives, every command exits with 0. *)
Definition newline : string := String "010"%char EmptyString.

Definition fair_session : session :=
  {| rc_path := "/tmp/tmpq4Tz0R"; env_updates := [("GISRC", "/tmp/tmpq4Tz0R")] |}.

Definition fair_world : world :=
  {| module_found := λ _ _, true;
     check_output_result := λ _ _, Some ("/usr/lib/grass72" +:+ newline);
     init_result := λ _ _ _ _ _, Some fair_session;
     urlretrieve_result := λ _ _, Some "1:low" ;
     file_readable := λ _ _, true;
     remove_ok := λ _ _, true;
     system_status := λ _ _, 0 |}.



(** The effects of the run in the fair world, without the parts the world
    decides. *)
Definition reference_kinds : list (nat * ekind) :=
  Eval vm_compute in
    map (λ x : nat * event, (x.1, kind_of x.2)) (trace (run fair_world ∅ [])).

Definition kinds_at (pc : nat) : list ekind :=
  map snd (List.filter (λ x : nat * ekind, Nat.eqb x.1 pc) reference_kinds).

(** ** Reading the statements *)

Fixpoint has_arith (e : expr) : bool :=
  match e with
  | Num _ | Str _ | Name _ => false
  | BinOp _ _ _ => true
  | Attribute e' _ => has_arith e'
  | Subscript e' i => has_arith e' || has_arith i
  | ListLit elts => existsb has_arith elts
  | Call f args kws =>
      has_arith f || existsb has_arith args
      || existsb (λ ke : string * expr, has_arith ke.2) kws
  end.

Definition stmt_has_arith (s : stmt) : bool :=
  match s with
  | Import _ _ | ImportFrom _ _ | Bang _ => false
  | Assign t v => has_arith t || has_arith v
  | Expr e => has_arith e
  | Print vs => existsb has_arith vs
  end.

(** [is_path e ["os"; "environ"]] recognises the dotted name [os.environ]. *)
Fixpoint is_path_rev (e : expr) (rev_path : list string) : bool :=
  match e, rev_path with
  | Name id, [x] => String.eqb id x
  | Attribute e' a, x :: p => String.eqb a x && is_path_rev e' p
  | _, _ => false
  end.

Definition is_path (e : expr) (path : list string) : bool := is_path_rev e (rev path).

Inductive kind :=
| KImport          (* import ... *)
| KEnviron         (* os.environ[...] = ... *)
| KSearchPath      (* sys.path.append(...) *)
| KSession         (* gsetup.init(...), gs.set_...(...) *)
| KDownloadFile    (* urllib.urlretrieve(...) *)
| KCommand         (* !cmd, subprocess.check_output(...) *)
| KImage           (* Image(filename=...) *)
| KRemoveRc        (* os.remove(rcfile) *)
| KPlain.          (* any other Python statement *)

Definition call_kind (f : expr) : kind :=
  if is_path f ["urllib"; "urlretrieve"] then KDownloadFile
  else if is_path f ["Image"] then KImage
  else if is_path f ["os"; "remove"] then KRemoveRc
  else if is_path f ["sys"; "path"; "append"] then KSearchPath
  else if is_path f ["gsetup"; "init"] then KSession
  else if is_path f ["gs"; "set_raise_on_error"] then KSession
  else if is_path f ["gs"; "set_capture_stderr"] then KSession
  else if is_path f ["subprocess"; "check_output"] then KCommand
  else KPlain.

Definition classify (s : stmt) : kind :=
  match s with
  | Import _ _ | ImportFrom _ _ => KImport
  | Bang _ => KCommand
  | Assign (Subscript c (Str _)) _ => if is_path c ["os"; "environ"] then KEnviron else KPlain
  | Assign (Name _) (Call (Attribute (Call f _ _) m) [] []) =>
      if String.eqb m "strip" then call_kind f else KPlain
  | Assign (Name _) (Call f _ _) => call_kind f
  | Expr (Call f _ _) => call_kind f
  | _ => KPlain
  end.

(** The four kinds of statement the notebook is described to consist of. *)
Definition orchestration (k : kind) : bool :=
  match k with
  | KEnviron | KDownloadFile | KCommand | KImage => true
  | _ => false
  end.

(** The kinds found outside the demonstration cell. *)
Definition session_glue (k : kind) : bool :=
  match k with
  | KImport | KSearchPath | KSession | KRemoveRc => true
  | _ => false
  end.

(** The program a shell line starts: the text before the first blank. *)
Fixpoint command_name (line : string) : string :=
  match line with
  | EmptyString => EmptyString
  | String c line' =>
      if Ascii.eqb c " " then EmptyString else String c (command_name line')
  end.

(** Display commands of the toolkit are the [d.*] programs. *)
Definition is_display_command (line : string) : bool :=
  String.prefix "d." (command_name line).






Definition statement (pc : nat) : option stmt := snd <$> program !! pc.



(** The five auxiliary text files. *)
Definition text_files : list string :=
  ["noise_cats.txt"; "friction_rules.txt"; "friction_color.txt"; "fire_pt.txt";
   "lostperson.txt"].

(** How many download calls of a trace write [filename]. *)
Definition fetches (filename : string) (tr : list (nat * event)) : nat :=
  length (List.filter
    (λ x : nat * event,
       match x.2 with EvDownload _ f _ => String.eqb f filename | _ => false end) tr).

(** The external calls a trace holds for statement [pc]. *)
Definition calls_at (pc : nat) (tr : list (nat * event)) : list event :=
  map snd (List.filter (λ x : nat * event, Nat.eqb x.1 pc && is_external_call x.2) tr).

(** What the run shows inline, with the index of the statement. *)
Definition displays (tr : list (nat * event)) : list (nat * value) :=
  omap (λ x : nat * event,
          match x.2 with EvDisplay v => Some (x.1, v) | _ => None end) tr.

(** The image files the run shows inline. *)
Definition images_shown (tr : list (nat * event)) : list (nat * string) :=
  omap (λ x : nat * event,
          match x.2 with EvDisplay (VImage f) => Some (x.1, f) | _ => None end) tr.

Definition kind_images_shown (ks : list (nat * ekind)) : list (nat * string) :=
  omap (λ x : nat * ekind,
          match x.2 with KDisplay (VImage f) => Some (x.1, f) | _ => None end) ks.

(** The same two readings on events without the world's parts. *)
Definition kind_fetches (filename : string) (ks : list (nat * ekind)) : nat :=
  length (List.filter
    (λ x : nat * ekind,
       match x.2 with KDownload _ f => String.eqb f filename | _ => false end) ks).

Definition kind_displays (ks : list (nat * ekind)) : list (nat * value) :=
  omap (λ x : nat * ekind,
          match x.2 with KDisplay v => Some (x.1, v) | _ => None end) ks.



(** The toolkit overwrites existing maps when [GRASS_OVERWRITE] is [1]. *)
Definition overwrite_mode (env : gmap string string) : Prop :=
  env !! "GRASS_OVERWRITE" = Some "1".

(** The environment variables the cells assign. *)
Definition own_variables : list string :=
  ["GISBASE"; "GRASS_FONT"; "GRASS_OVERWRITE"; "GRASS_RENDER_IMMEDIATE";
   "GRASS_RENDER_FILE_READ"; "GRASS_LEGEND_FILE"].

(** Positions of the statements named below. *)
Definition pc_check_output : nat := 9.
Definition pc_init : nat := 14.
Definition pc_overwrite : nat := 16.
Definition pc_render : nat := 19.

(** What holds of the control flow at every executed statement: a
    statement that succeeds made no failed call; a statement that raises
    ran no shell command; a statement makes at most one external call;
    a statement that succeeds has the effects it has in the fair world. *)
Definition control_ok (pc : nat) (st : state) (r : res unit) : Prop :=
  (is_ok r = true → Forall (λ ev, call_failed ev = false) (events r)) ∧
  (is_ok r = false → Forall (λ ev, is_shell ev = false) (events r)) ∧
  (length (List.filter is_external_call (events r)) ≤ 1)%nat ∧
  (is_ok r = true → map kind_of (events r) = kinds_at pc).

Definition init_call (w : world) (g : string) : option session :=
  init_result w pc_init g "/home/main/grassdata" "nc_spm_08_grass7" "user1".

(** The environment differs from the initial one only at the variables
    the cells assign and at those the session start sets. *)
Definition env_frame (w : world) (env0 env : gmap string string) : Prop :=
  ∀ k, ¬ In k own_variables →
       (∀ g s, init_call w g = Some s → ¬ In k (map fst (env_updates s))) →
       env !! k = env0 !! k.

(** The search path is the initial one, or has the toolkit's Python
    directory appended. *)
Definition path_ok (w : world) (path0 path : list string) : Prop :=
  path = path0 ∨
  ∃ out, check_output_result w pc_check_output ["grass"; "--config"; "path"] = Some out ∧
         path = (path0 ++ [join (strip out) ["etc"; "python"]])%list.

(** Display commands render into a file when [GRASS_RENDER_IMMEDIATE]
    is set, and into the selected monitor otherwise; the file is the one
    [GRASS_RENDER_FILE] names, [map.png] when it is not set. *)
Definition renders_to_file (env : gmap string string) : Prop :=
  is_Some (env !! "GRASS_RENDER_IMMEDIATE").

Definition render_file (env : gmap string string) : string :=
  default "map.png" (env !! "GRASS_RENDER_FILE").

(** Shell commands after the assignment of [GRASS_OVERWRITE] see it set,
    those after the assignment of [GRASS_RENDER_IMMEDIATE] see that one
    set, and all see an environment that differs from the initial one
    only where the cells or the session start wrote; downloads write one
    of the five text files; the file removed is the rc file of the
    session. *)
Definition effect_ok (w : world) (env0 : gmap string string) (pc : nat) (ev : event)
  : Prop :=
  match ev with
  | EvShell _ env _ =>
      ((pc_overwrite < pc)%nat → overwrite_mode env) ∧
      ((pc_render < pc)%nat → env !! "GRASS_RENDER_IMMEDIATE" = Some "cairo") ∧
      env_frame w env0 env
  | EvDownload _ f _ => In f text_files
  | EvRemove p _ => ∃ g s, init_call w g = Some s ∧ p = rc_path s
  | _ => True
  end.

Definition state_ok (w : world) (env0 : gmap string string) (path0 : list string)
  (pc : nat) (st : state) (r : res unit) : Prop :=
  Forall (effect_ok w env0 pc) (events r) ∧
  env_frame w env0 (environ (post r)) ∧
  path_ok w path0 (sys_path (post r)).

(** ** Re-running cells *)

Definition cell_at (j : nat) : list stmt := nth j cells [].

(** The first three cells: demonstration, session start, overwrite
    setting. *)
Definition startup : list (bool * stmt) := flatten (firstn 3 cells).

(** The user namespace once the first three cells have run: the value of
    [_exit_code], of [gisbase] and of [rcfile] vary; [more] holds what
    later cells bind. *)
Definition namespace (status : Z) (gisbase rcfile : string) (more : list (string * value))
  : list (string * value) :=
  ([ ("a", VInt 6); ("b", VInt 7); ("c", VInt 42); ("_exit_code", VInt status);
     ("os", VModule "os"); ("sys", VModule "sys"); ("subprocess", VModule "subprocess");
     ("Image", VFunc "IPython.display.Image"); ("gisbase", VStr gisbase);
     ("gs", VModule "grass.script"); ("gsetup", VModule "grass.script.setup");
     ("rcfile", VStr rcfile) ] ++ more)%list.

Definition started (st : state) : Prop :=
  (∃ status gisbase rcfile more,
     globals st = namespace status gisbase rcfile more ∧
     (more = [] ∨ more = [("urllib", VModule "urllib")])) ∧
  overwrite_mode (environ st).




(** ** Reading the statements for what they start *)

(** The modules the cells import, top to bottom. *)
Definition imported_modules : list string :=
  omap (λ x : bool * stmt,
          match x.2 with
          | Import m _ | ImportFrom m _ => Some m
          | _ => None
          end) program.

(** The shell lines of the cells. *)
Definition shell_lines : list string :=
  omap (λ x : bool * stmt, match x.2 with Bang line => Some line | _ => None end) program.

(** Whether a shell line holds [&] outside double quotes, as a line that
    puts a command in the background does. *)
Fixpoint unquoted_ampersand_from (quoted : bool) (line : string) : bool :=
  match line with
  | EmptyString => false
  | String c line' =>
      if Ascii.eqb c "034" then unquoted_ampersand_from (negb quoted) line'
      else (negb quoted && Ascii.eqb c "&") || unquoted_ampersand_from quoted line'
  end.

Definition unquoted_ampersand : string → bool := unquoted_ampersand_from false.

(** ** What a statement may raise *)

(** The exception a statement raises when the call it makes fails: an
    import that does not find its module, [subprocess.check_output] on a
    command that fails, the session start, a download, the file read of
    [Image], the removal of the rc file. *)
Definition may_raise (s : stmt) (e : exn) : bool :=
  match e with
  | ImportError m' =>
      match s with
      | Import m _ | ImportFrom m _ => String.eqb m m'
      | _ => false
      end
  | CalledProcessError =>
      match s with
      | Assign _ _ => match classify s with KCommand => true | _ => false end
      | _ => false
      end
  | ScriptError =>
      match s with
      | Assign _ (Call f _ _) => is_path f ["gsetup"; "init"]
      | _ => false
      end
  | IOError p =>
      match s with
      | Expr (Call f (Str url :: _) []) =>
          is_path f ["urllib"; "urlretrieve"] && String.eqb url p
      | Expr (Call f [] [(_, Str file)]) => is_path f ["Image"] && String.eqb file p
      | _ => false
      end
  | OSError _ => match classify s with KRemoveRc => true | _ => false end
  | NameError _ | AttributeError _ | TypeError | KeyError _ => false
  end.

Definition raise_at (pc : nat) (e : exn) : bool :=
  match statement pc with Some s => may_raise s e | None => false end.


(** A statement that raises raises what [may_raise] allows, and the
    effects it had before are failed calls. *)
Definition raise_ok (pc : nat) (st : state) (r : res unit) : Prop :=
  match r with
  | Ok _ _ _ => True
  | Raised e _ tr => raise_at pc e = true ∧ Forall (λ ev, call_failed ev = true) tr
  end.

(** ** The session data *)

(** What [grass --config path] printed. *)
Definition config_path (w : world) : option string :=
  check_output_result w pc_check_output ["grass"; "--config"; "path"].

(** The environment once the first four cells have run: the initial one,
    [GISBASE], what the session start set, and the five variables of the
    third and fourth cell. *)
Definition session_env (env0 : gmap string string) (out : string) (s : session)
  : gmap string string :=
  setenv "GRASS_LEGEND_FILE" "legend.txt"
    (setenv "GRASS_RENDER_FILE_READ" "TRUE"
      (setenv "GRASS_RENDER_IMMEDIATE" "cairo"
        (setenv "GRASS_OVERWRITE" "1"
          (setenv "GRASS_FONT" "sans"
            (apply_updates (env_updates s) (setenv "GISBASE" (strip out) env0)))))).

Definition pc_demo_shell : nat := 4.
Definition pc_teardown : nat := 132.

(** Where the arguments of the external calls come from. *)
Definition session_ok (w : world) (env0 : gmap string string) (pc : nat) (ev : event)
  : Prop :=
  match ev with
  | EvSubprocess argv env out =>
      argv = ["grass"; "--config"; "path"] ∧ env = env0 ∧ out = config_path w
  | EvSessionInit g dbase location mapset r =>
      ∃ out, config_path w = Some out ∧ g = strip out ∧
             dbase = "/home/main/grassdata" ∧ location = "nc_spm_08_grass7" ∧
             mapset = "user1" ∧ r = init_call w g
  | EvShell _ env _ =>
      (pc = pc_demo_shell ∧ env = env0) ∨
      (∃ out s, config_path w = Some out ∧ init_call w (strip out) = Some s ∧
                env = session_env env0 out s)
  | EvRemove p _ =>
      ∃ out s, config_path w = Some out ∧ init_call w (strip out) = Some s ∧ p = rc_path s
  | _ => True
  end.

(** The interpreter state at the end of a run that completes. *)
Definition finished (w : world) (env0 : gmap string string) (path0 : list string)
  (st : state) : Prop :=
  ∃ out s,
    config_path w = Some out ∧ init_call w (strip out) = Some s ∧
    environ st = session_env env0 out s ∧
    sys_path st = (path0 ++ [join (strip out) ["etc"; "python"]])%list ∧
    lookup_var "gisbase" (globals st) = Some (VStr (strip out)) ∧
    lookup_var "rcfile" (globals st) = Some (VStr (rc_path s)) ∧
    raise_on_error st = true ∧ capture_stderr st = true.

Definition session_state_ok (w : world) (env0 : gmap string string) (path0 : list string)
  (pc : nat) (st : state) (r : res unit) : Prop :=
  Forall (session_ok w env0 pc) (events r) ∧
  (pc = pc_teardown → is_ok r = true → finished w env0 path0 (post r)).

(** ** Text files named on shell lines *)

(** The words of a line, split at blanks. *)
Fixpoint words (line : string) : list string :=
  match line with
  | EmptyString => [EmptyString]
  | String c line' =>
      if Ascii.eqb c " " then EmptyString :: words line'
      else match words line' with
           | word :: rest => String c word :: rest
           | [] => [String c EmptyString]
           end
  end.

(** The value of an option [key=value]: the text after the first [=]. *)
Fixpoint option_value (word : string) : option string :=
  match word with
  | EmptyString => None
  | String c word' => if Ascii.eqb c "=" then Some word' else option_value word'
  end.

Fixpoint ends_with (suffix s : string) : bool :=
  String.eqb s suffix
  || match s with EmptyString => false | String _ s' => ends_with suffix s' end.

(** The [.txt] files a command is given as option values. *)
Definition file_arguments (line : string) : list string :=
  List.filter (ends_with ".txt") (omap option_value (words line)).

(** Output a run produces on the Python side. *)
Definition is_output (k : ekind) : bool :=
  match k with KStdout _ | KDisplay _ => true | _ => false end.

(** ** Cells run on their own *)

Fixpoint first_some {A} (l : list (option A)) : option A :=
  match l with
  | [] => None
  | Some a :: _ => Some a
  | None :: l' => first_some l'
  end.

(** The first name an expression looks up, in evaluation order, that is
    neither in [bound] nor a builtin. *)
Fixpoint unbound_name (bound : list string) (e : expr) : option string :=
  match e with
  | Num _ | Str _ => None
  | Name id =>
      if existsb (String.eqb id) bound then None
      else match builtin id with Some _ => None | None => Some id end
  | BinOp l _ r => first_some [unbound_name bound l; unbound_name bound r]
  | Attribute e' _ => unbound_name bound e'
  | Subscript e' i => first_some [unbound_name bound e'; unbound_name bound i]
  | ListLit elts => first_some (map (unbound_name bound) elts)
  | Call f args kws =>
      first_some (unbound_name bound f :: map (unbound_name bound) args
                  ++ map (λ ke : string * expr, unbound_name bound ke.2) kws)
  end.

(** The same for a statement, with the names the statement binds. *)
Definition unbound_in_stmt (bound : list string) (s : stmt) : option string * list string :=
  match s with
  | Import m (Some n) => (None, n :: bound)
  | Import m None => (None, top_package m :: bound)
  | ImportFrom _ n => (None, n :: bound)
  | Assign (Name id) v => (unbound_name bound v, id :: bound)
  | Assign t v => (first_some [unbound_name bound v; unbound_name bound t], bound)
  | Expr e => (unbound_name bound e, bound)
  | Print vs => (first_some (map (unbound_name bound) vs), bound)
  | Bang _ => (None, "_exit_code" :: bound)
  end.

(** The first statement of a cell that looks up a name no earlier
    statement of the cell has bound, with that name. *)
Fixpoint first_unbound_from (i : nat) (bound : list string) (body : list stmt)
  : option (nat * string) :=
  match body with
  | [] => None
  | s :: body' =>
      match unbound_in_stmt bound s with
      | (Some x, _) => Some (i, x)
      | (None, bound') => first_unbound_from (S i) bound' body'
      end
  end.

Definition first_unbound : list stmt → option (nat * string) := first_unbound_from 0 [].

(** A cell run alone on a fresh kernel. *)
Definition run_alone (w : world) (env0 : gmap string string) (path0 : list string)
  (j : nat) : run_result :=
  run_from w 0 (mark_last (cell_at j)) (fresh env0 path0).

(** The environment the commands of the fair world run in. *)
Definition fair_env : gmap string string :=
  session_env ∅ ("/usr/lib/grass72" +:+ newline) fair_session.

(** ** Starting the session again *)

(** The state after the cell that starts the session has been run again
    as the statements [t], [t + 1], ... on the state [st0]: one more entry
    in the search path, [gisbase] and [rcfile] bound anew, [GISBASE] and
    the variables of the new session set. *)
Definition restarted (w : world) (t : nat) (st0 st : state) : Prop :=
  ∃ out s,
    check_output_result w (4 + t) ["grass"; "--config"; "path"] = Some out ∧
    init_result w (9 + t) (strip out) "/home/main/grassdata" "nc_spm_08_grass7" "user1"
      = Some s ∧
    sys_path st = (sys_path st0 ++ [join (strip out) ["etc"; "python"]])%list ∧
    lookup_var "gisbase" (globals st) = Some (VStr (strip out)) ∧
    lookup_var "rcfile" (globals st) = Some (VStr (rc_path s)) ∧
    environ st = apply_updates (env_updates s) (setenv "GISBASE" (strip out) (environ st0)).

Definition is_remove (ev : event) : bool :=
  match ev with EvRemove _ _ => true | _ => false end.

(** ** White space and paths *)

Definition all_space (s : string) : bool := forallb is_space (list_ascii_of_string s).

Definition first_char (s : string) : option ascii :=
  match s with EmptyString => None | String c _ => Some c end.

Fixpoint last_char (s : string) : option ascii :=
  match s with
  | EmptyString => None
  | String c EmptyString => Some c
  | String _ s' => last_char s'
  end.

(** ** Layers named on shell lines *)

Definition is_name_char (c : ascii) : bool := (is_ident_char c || Ascii.eqb c ".")%bool.

(** A line cut at every character that is not part of a name. *)
Fixpoint names (line : string) : list string :=
  match line with
  | EmptyString => [EmptyString]
  | String c line' =>
      if is_name_char c then
        match names line' with
        | word :: rest => String c word :: rest
        | [] => [String c EmptyString]
        end
      else EmptyString :: names line'
  end.

(** The names, numbers and option keys a line holds. *)
Definition tokens (line : string) : list string :=
  List.filter (λ t, negb (String.eqb t "")) (names line).

Definition after_prefix (p word : string) : option string :=
  if String.prefix p word
  then Some (String.substring (String.length p) (String.length word - String.length p) word)
  else None.

(** The layers a command writes: the target of an [r.mapcalc]
    expression, the copy made by [g.copy], the value of an [output=] or
    [out=] option. *)
Definition produced (line : string) : list string :=
  if String.eqb (command_name line) "r.mapcalc" then
    match tokens line with _ :: target :: _ => [target] | _ => [] end
  else if String.eqb (command_name line) "g.copy" then
    match tokens line with _ :: _ :: _ :: copy :: _ => [copy] | _ => [] end
  else
    omap (λ word, match after_prefix "output=" word with
                  | Some v => Some v
                  | None => after_prefix "out=" word
                  end) (words line).

(** All the layers the commands of the notebook write. *)
Definition produced_names : list string := flat_map produced shell_lines.

(** ** What an image holds *)




Arguments run : simpl never.

End Notebook.

(** * Raster algebra: the expressions given to [r.mapcalc] *)

Module Mapcalc.

(** The operators of the two expressions that build the speed and the
    travel-time layers.  Cell values are exact rationals; [None] is the
    null cell. *)
Inductive expr :=
| IntLit (n : Z)
| DecLit (digits : Z) (scale : nat)     (* digits / 10^scale *)
| Map (name : string)
| IsNull (e : expr)
| If3 (c a b : expr)
| Div (a b : expr).

Definition cell : Type := Z * Z.
Definition raster : Type := cell → option Q.

(** A mapset: the computational region and the raster maps by name. *)
Record mapset := { region : cell → bool; rasters : gmap string raster }.

Definition dec_value (digits : Z) (scale : nat) : Q :=
  (inject_Z digits / inject_Z (10 ^ Z.of_nat scale))%Q.

(** Cell-wise evaluation.  [isnull] is never null; [if] is null when its
    condition is; a quotient is null when an operand is null or the
    divisor is zero. *)
Fixpoint eval (maps : gmap string raster) (c : cell) (e : expr) : option Q :=
  match e with
  | IntLit n => Some (inject_Z n)
  | DecLit d s => Some (dec_value d s)
  | Map name => match maps !! name with Some r => r c | None => None end
  | IsNull e' => match eval maps c e' with None => Some 1%Q | Some _ => Some 0%Q end
  | If3 x a b =>
      match eval maps c x with
      | None => None
      | Some v => if Qeq_bool v 0 then eval maps c b else eval maps c a
      end
  | Div a b =>
      match eval maps c a, eval maps c b with
      | Some x, Some y => if Qeq_bool y 0 then None else Some (x / y)%Q
      | _, _ => None
      end
  end.

Fixpoint maps_of (e : expr) : list string :=
  match e with
  | IntLit _ | DecLit _ _ => []
  | Map name => [name]
  | IsNull e' => maps_of e'
  | If3 x a b => maps_of x ++ maps_of a ++ maps_of b
  | Div a b => maps_of a ++ maps_of b
  end.

(** [r.mapcalc "target = e"]: fails when a map of [e] does not exist;
    otherwise writes [target] over the current region. *)
Definition r_mapcalc (target : string) (e : expr) (ms : mapset) : option mapset :=
  if forallb (λ n, bool_decide (is_Some (rasters ms !! n))) (maps_of e) then
    Some {| region := region ms;
            rasters := <[target := λ c, if region ms c then eval (rasters ms) c e else None]>
                         (rasters ms) |}
  else None.

(** The divisor of a quotient. *)
Definition divisor (e : expr) : option expr :=
  match e with Div _ b => Some b | _ => None end.

(** The text of an expression. *)
Definition show_dec (digits : Z) (scale : nat) : string :=
  let p := 10 ^ Z.of_nat scale in
  let frac := pretty (digits mod p) in
  pretty (digits / p) +:+ "." +:+
  String.concat "" (replicate (scale - String.length frac) "0") +:+ frac.

Fixpoint show (e : expr) : string :=
  match e with
  | IntLit n => pretty n
  | DecLit d s => show_dec d s
  | Map name => name
  | IsNull e' => "isnull(" +:+ show e' +:+ ")"
  | If3 x a b => "if(" +:+ show x +:+ "," +:+ show a +:+ "," +:+ show b +:+ ")"
  | Div a b => show a +:+ "/" +:+ show b
  end.

Definition command (target : string) (e : expr) : string :=
  "r.mapcalc " +:+ q (target +:+ " = " +:+ show e).

(** [streets_speed = if(isnull(streets_speedtmp),5,streets_speedtmp)] *)
Definition streets_speed : expr :=
  If3 (IsNull (Map "streets_speedtmp")) (IntLit 5) (Map "streets_speedtmp").

(** [streets_travtime = 0.018641/streets_speed] *)
Definition streets_travtime : expr :=
  Div (DecLit 18641 6) (Map "streets_speed").

(** A region of two cells; the rasterised speed is 35 in the first and
    null in the second. *)
Definition two_cells : mapset :=
  {| region := λ c, (Z.eqb c.1 0 && (Z.eqb c.2 0 || Z.eqb c.2 1))%bool;
     rasters := {[ "streets_speedtmp" :=
                   λ c : cell, if Z.eqb c.2 0 then Some (inject_Z 35) else None ]} |}.

(** The two steps, one after the other. *)
Definition speed_then_travtime (ms : mapset) : option mapset :=
  r_mapcalc "streets_speed" streets_speed ms ≫= r_mapcalc "streets_travtime" streets_travtime.

(** The travel time of a cell that has the speed [v]: null for speed 0. *)
Definition travel_time (v : Q) : option Q :=
  if Qeq_bool v 0 then None else Some (dec_value 18641 6 / v)%Q.

End Mapcalc.

(** * Raster algebra: the expressions that select and combine layers *)

Module Algebra.
Import Mapcalc.

Inductive op := Eq | Gt | And | Or.

(** The operators of the expressions that build the layers
    [developed_lake], [noise], [schools_noise] and [friction2]. *)
Inductive expr :=
| IntLit (n : Z)
| DecLit (digits : Z) (scale : nat)
| Map (name : string)
| Null
| IsNull (e : expr)
| Int (e : expr)
| If3 (c a b : expr)
| Bin (o : op) (a b : expr).

Definition truth (v : Q) : bool := negb (Qeq_bool v 0).

Definition of_bool (b : bool) : option Q := Some (if b then 1%Q else 0%Q).

(** [int(x)]: the integer part, towards zero. *)
Definition truncate (v : Q) : Q := inject_Z (Z.quot (Qnum v) (Z.pos (Qden v))).

Definition apply_op (o : op) (x y : Q) : bool :=
  match o with
  | Eq => Qeq_bool x y
  | Gt => negb (Qle_bool x y)
  | And => truth x && truth y
  | Or => truth x || truth y
  end.

(** Cell-wise evaluation.  A comparison or logical operator is null when
    an operand is null; [int] of null is null; [if] is null when its
    condition is null, its second argument when the condition is not
    zero, its third otherwise; [null()] is null. *)
Fixpoint eval (maps : gmap string raster) (c : cell) (e : expr) : option Q :=
  match e with
  | IntLit n => Some (inject_Z n)
  | DecLit d s => Some (dec_value d s)
  | Map name => match maps !! name with Some r => r c | None => None end
  | Null => None
  | IsNull e' => match eval maps c e' with None => Some 1%Q | Some _ => Some 0%Q end
  | Int e' => match eval maps c e' with None => None | Some v => Some (truncate v) end
  | If3 x a b =>
      match eval maps c x with
      | None => None
      | Some v => if truth v then eval maps c a else eval maps c b
      end
  | Bin o a b =>
      match eval maps c a, eval maps c b with
      | Some x, Some y => of_bool (apply_op o x y)
      | _, _ => None
      end
  end.

Fixpoint maps_of (e : expr) : list string :=
  match e with
  | IntLit _ | DecLit _ _ | Null => []
  | Map name => [name]
  | IsNull e' | Int e' => maps_of e'
  | If3 x a b => maps_of x ++ maps_of a ++ maps_of b
  | Bin _ a b => maps_of a ++ maps_of b
  end.

(** [r.mapcalc "target = e"], as in [Mapcalc]. *)
Definition r_mapcalc (target : string) (e : expr) (ms : mapset) : option mapset :=
  if forallb (λ n, bool_decide (is_Some (rasters ms !! n))) (maps_of e) then
    Some {| region := region ms;
            rasters := <[target := λ c, if region ms c then eval (rasters ms) c e else None]>
                         (rasters ms) |}
  else None.

(** The text of an expression, without blanks.  Comparisons bind
    tighter than [&&], which binds tighter than [||]; an operand that
    binds less tightly than its operator is put in parentheses. *)
Definition level (o : op) : nat :=
  match o with Or => 1 | And => 2 | Eq | Gt => 3 end.

Definition symbol (o : op) : string :=
  match o with Eq => "==" | Gt => ">" | And => "&&" | Or => "||" end.

Definition parens (s : string) : string := "(" +:+ s +:+ ")".

Fixpoint show_at (l : nat) (e : expr) : string :=
  match e with
  | IntLit n => pretty n
  | DecLit d s => show_dec d s
  | Map name => name
  | Null => "null()"
  | IsNull e' => "isnull(" +:+ show_at 0 e' +:+ ")"
  | Int e' => "int(" +:+ show_at 0 e' +:+ ")"
  | If3 x a b =>
      "if(" +:+ show_at 0 x +:+ "," +:+ show_at 0 a +:+ "," +:+ show_at 0 b +:+ ")"
  | Bin o a b =>
      let s := show_at (level o) a +:+ symbol o +:+ show_at (S (level o)) b in
      if Nat.ltb (level o) l then parens s else s
  end.

Definition show : expr → string := show_at 0.

(** A line without its blanks. *)
Fixpoint squeeze (line : string) : string :=
  match line with
  | EmptyString => EmptyString
  | String c line' => if Ascii.eqb c " " then squeeze line' else String c (squeeze line')
  end.

Definition command (target : string) (e : expr) : string :=
  "r.mapcalc" +:+ q (target +:+ "=" +:+ show e).

(** A statement is the command [r.mapcalc "target = e"], up to blanks. *)
Definition is_command (s : option Py.stmt) (target : string) (e : expr) : Prop :=
  ∃ line, s = Some (Py.Bang line) ∧ squeeze line = command target e.

(** [if(landuse96_28m==1 || landuse96_28m==2, layer, null())] *)
Definition on_developed_land (layer : string) : expr :=
  If3 (Bin Or (Bin Eq (Map "landuse96_28m") (IntLit 1))
              (Bin Eq (Map "landuse96_28m") (IntLit 2)))
      (Map layer) Null.

Definition developed_lake : expr := on_developed_land "lakes_buff".
Definition noise : expr := on_developed_land "roads_buffers".

(** [if(int(schoolscap_10m) && roads_buffers == 2, int(schoolscap_10m), null())] *)
Definition schools_noise : expr :=
  If3 (Bin And (Int (Map "schoolscap_10m")) (Bin Eq (Map "roads_buffers") (IntLit 2)))
      (Int (Map "schoolscap_10m")) Null.

(** [if(streets_speed > 6, 0.1, friction)] *)
Definition friction2 : expr :=
  If3 (Bin Gt (Map "streets_speed") (IntLit 6)) (DecLit 1 1) (Map "friction").

(** A land use of class [u] counts as developed. *)
Definition developed (u : Q) : bool := (Qeq_bool u 1 || Qeq_bool u 2)%bool.

(** The number of cells of a list that are not null in a layer. *)
Definition covered (r : raster) (cells : list cell) : nat :=
  length (List.filter (λ c, match r c with Some _ => true | None => false end) cells).

(** Two cells: a street of speed 35 and no street; speed layer and
    friction layer as the earlier steps leave them. *)
Definition street_and_field : mapset :=
  {| region := λ c, (Z.eqb c.1 0 && (Z.eqb c.2 0 || Z.eqb c.2 1))%bool;
     rasters := {[ "streets_speed" :=
                     (λ c : cell, if Z.eqb c.2 0 then Some (inject_Z 35) else Some (inject_Z 5));
                   "friction" := (λ c : cell, Some (inject_Z 3)) ]} |}.

Definition street_speeds : raster :=
  λ c : cell, if Z.eqb c.2 0 then Some (inject_Z 35) else None.

End Algebra.

(** * The example test class of the add-on notebook *)

Module Gunittest.

(** The two map types named in [type=['raster', 'vector']]. *)
Inductive element := raster | vector.

Record mapset := { rasters : gset string; vectors : gset string }.

(** Shell-style wildcards of a [pattern=] option. *)
Fixpoint glob (p : string) : string → bool :=
  match p with
  | EmptyString => λ t, match t with EmptyString => true | _ => false end
  | String c p' =>
      if Ascii.eqb c "*" then
        fix star (t : string) : bool :=
          (glob p' t || match t with EmptyString => false | String _ t' => star t' end)%bool
      else if Ascii.eqb c "?" then
        λ t, match t with EmptyString => false | String _ t' => glob p' t' end
      else
        λ t, match t with
             | EmptyString => false
             | String d t' => (Ascii.eqb c d && glob p' t')%bool
             end
  end.

Inductive module_call :=
| g_region (n s w e : Z) (raster : string)
| v_random (output : string) (npoints seed : Z)
| r_viewshed_points (elevation points output_points viewshed_basename : string)
| g_remove (type : list element) (pattern : string) (flags : string).

(** [r.viewshed.points] is the add-on written in the earlier notebooks of
    the series, which are not among the sources.  It is taken as a
    parameter: [viewshed_suffixes] gives, for a points map, the endings of
    the viewshed rasters it writes after [viewshed_basename];
    [area_fits] is the answer of the attribute comparison in
    [test_area_matches]. *)
Record toolkit := {
  viewshed_suffixes : string → list string;
  area_fits : string → bool
}.

Definition has_element (t : element) (types : list element) : bool :=
  existsb (λ u, match t, u with raster, raster | vector, vector => true | _, _ => false end)
    types.

Definition has_flag (c : ascii) (flags : string) : bool :=
  existsb (Ascii.eqb c) (list_ascii_of_string flags).

Definition keep (pattern : string) (names : gset string) : gset string :=
  filter (λ n, glob pattern n = false) names.

(** [runModule]: the call either succeeds and leaves a new mapset, or
    raises. *)
Definition runModule (tk : toolkit) (m : module_call) (ms : mapset) : option mapset :=
  match m with
  | g_region _ _ _ _ r =>
      if bool_decide (r ∈ rasters ms) then Some ms else None
  | v_random output _ _ =>
      Some {| rasters := rasters ms; vectors := {[output]} ∪ vectors ms |}
  | r_viewshed_points elevation points output_points basename =>
      if bool_decide (elevation ∈ rasters ms ∧ points ∈ vectors ms) then
        Some {| rasters := list_to_set (map (String.append basename) (viewshed_suffixes tk points))
                           ∪ rasters ms;
                vectors := {[output_points]} ∪ vectors ms |}
      else None
  | g_remove types pattern flags =>
      if has_flag "f" flags then
        Some {| rasters := if has_element raster types then keep pattern (rasters ms)
                           else rasters ms;
                vectors := if has_element vector types then keep pattern (vectors ms)
                           else vectors ms |}
      else Some ms
  end.

(** ** [class TestViewshedPoint(TestCase)] *)

Definition prefix : string := "test_rviewshedpoints_".


Definition setUp : module_call :=
  r_viewshed_points "elevation" (prefix +:+ "input_points") (prefix +:+ "output_points")
    (prefix +:+ "output_viewshed").

Definition tearDown : module_call :=
  g_remove [raster; vector] (prefix +:+ "*") "f".

Definition test_outputs_exists (tk : toolkit) (ms : mapset) : bool :=
  (Nat.eqb 10 (size (filter (λ n, glob (prefix +:+ "*") n = true) (rasters ms)))
   && bool_decide (prefix +:+ "output_points" ∈ vectors ms))%bool.


(** ** The fixture cycle of [unittest] *)

Inductive verdict := Passed | Failed | Errored.

(** One test method: [setUp], the method, [tearDown].  When [setUp]
    raises, neither the method nor [tearDown] is run. *)
Definition run_test (tk : toolkit) (body : toolkit → mapset → bool) (ms : mapset)
  : verdict * mapset :=
  match runModule tk setUp ms with
  | None => (Errored, ms)
  | Some ms1 =>
      let v := if body tk ms1 then Passed else Failed in
      match runModule tk tearDown ms1 with
      | Some ms2 => (v, ms2)
      | None => (Errored, ms1)
      end
  end.

(** The methods of a class run one after the other, each on the mapset
    the one before left. *)
Fixpoint run_tests (tk : toolkit) (bodies : list (toolkit → mapset → bool)) (ms : mapset)
  : list verdict * mapset :=
  match bodies with
  | [] => ([], ms)
  | body :: rest =>
      let (v, ms') := run_test tk body ms in
      let (vs, ms'') := run_tests tk rest ms' in
      (v :: vs, ms'')
  end.

(** A toolkit whose add-on writes two viewsheds, and the mapset that
    [setUpClass] leaves in it. *)
Definition two_viewsheds : toolkit :=
  {| viewshed_suffixes := λ _, ["_1"; "_2"]; area_fits := λ _, true |}.

Definition class_fixture : mapset :=
  {| rasters := {["elevation"]}; vectors := {[prefix +:+ "input_points"]} |}.

(** The mapset a test method leaves behind. *)
Definition after_test (tk : toolkit) (body : toolkit → mapset → bool) (ms : mapset)
  : mapset :=
  snd (run_test tk body ms).

Definition has_prefix (n : string) : Prop := ∃ rest, n = prefix +:+ rest.



(** The viewshed rasters [setUp] writes. *)
Definition viewsheds (tk : toolkit) : gset string :=
  list_to_set (map (String.append (prefix +:+ "output_viewshed"))
                 (viewshed_suffixes tk (prefix +:+ "input_points"))).

(** A toolkit whose add-on writes a viewshed for each of ten points. *)
Definition ten_viewsheds : toolkit :=
  {| viewshed_suffixes := λ _, ["_1"; "_2"; "_3"; "_4"; "_5"; "_6"; "_7"; "_8"; "_9"; "_10"];
     area_fits := λ _, true |}.


End Gunittest.

(** * Facts about runs, for any program *)

Section RunFacts.
Import Py.
Variable w : world.

Lemma run_sat_mono (Q Q' : nat → state → res unit → Prop) :
  (∀ pc st r, Q pc st r → Q' pc st r) →
  ∀ prog pc st, run_sat Q w pc prog st → run_sat Q' w pc prog st.
Proof.
  intros HQ prog. induction prog as [|[l s] rest IH]; simpl; [done|].
  intros pc st [H1 H2]. split; [by apply HQ|].
  destruct (exec_stmt w pc l s st); [by apply IH|done].
Qed.

(** A property of the events of every executed statement holds of the
    whole trace. *)
Lemma run_sat_trace (q : nat → event → Prop) prog : ∀ pc st,
  run_sat (λ pc _ r, Forall (q pc) (events r)) w pc prog st →
  Forall (λ x, q x.1 x.2) (trace (run_from w pc prog st)).
Proof.
  induction prog as [|[l s] rest IH]; simpl; intros pc st; [constructor|].
  intros [H1 H2].
  destruct (exec_stmt w pc l s st) as [a st' t|e st' t]; simpl in *.
  - apply Forall_app; split; [by apply Forall_map|by apply IH].
  - by apply Forall_map.
Qed.


(** The statements executed are a run of consecutive indices; it covers
    the program unless a statement raised, and then it ends there. *)
Lemma run_executed prog : ∀ pc st,
  ∃ n, executed (run_from w pc prog st) = seq pc n ∧ (n ≤ length prog)%nat ∧
       match raised (run_from w pc prog st) with
       | None => n = length prog
       | Some (p, _) => (pc + n = S p)%nat
       end.
Proof.
  induction prog as [|[l s] rest IH]; simpl; intros pc st.
  - exists 0%nat. by simpl.
  - destruct (exec_stmt w pc l s st) as [a st' t|e st' t]; simpl.
    + destruct (IH (S pc) st') as (n & He & Hn & Hr). exists (S n). simpl.
      rewrite He. split; [done|]. split; [lia|].
      destruct (raised (run_from w (S pc) rest st')) as [[p e]|]; lia.
    + exists 1%nat. simpl. split; [done|]. split; lia.
Qed.

Lemma trace_pc prog : ∀ pc st p ev,
  In (p, ev) (trace (run_from w pc prog st)) →
  (pc ≤ p)%nat ∧ In p (executed (run_from w pc prog st)).
Proof.
  induction prog as [|[l s] rest IH]; simpl; intros pc st p ev; [done|].
  destruct (exec_stmt w pc l s st) as [a st' t|e st' t]; simpl.
  - rewrite in_app_iff, in_map_iff. intros [(x & [= <- <-] & _)|H].
    + split; [lia|by left].
    + apply IH in H as [? ?]. split; [lia|by right].
  - rewrite in_map_iff. intros (x & [= <- <-] & _). split; [lia|by left].
Qed.

Lemma lookup_In {A} (l : list A) i x : l !! i = Some x → In x l.
Proof. intros H. apply list_elem_of_lookup_2 in H. by apply list_elem_of_In. Qed.

(** The effects are recorded statement by statement, in the order of the
    statements. *)
Lemma trace_in_statement_order prog : ∀ pc st i j x y,
  (i < j)%nat →
  trace (run_from w pc prog st) !! i = Some x →
  trace (run_from w pc prog st) !! j = Some y →
  (x.1 ≤ y.1)%nat.
Proof.
  assert (Hhere : ∀ (pc : nat) (t : list event) i x, map (pair pc) t !! i = Some x → x.1 = pc).
  { intros pc t i x H. apply lookup_In, in_map_iff in H as (ev & <- & _). done. }
  induction prog as [|[l s] rest IH]; simpl; intros pc st i j x y Hij; [done|].
  destruct (exec_stmt w pc l s st) as [a st' t|e st' t]; simpl.
  - rewrite !lookup_app_Some.
    intros [Hi|[Hli Hi]] [Hj|[Hlj Hj]].
    + apply Hhere in Hi, Hj. lia.
    + apply Hhere in Hi. apply lookup_In in Hj. destruct y as [p ev].
      apply trace_pc in Hj as [Hj _]. simpl in *. lia.
    + apply lookup_lt_Some in Hj. lia.
    + eapply IH; [|exact Hi|exact Hj]. lia.
  - intros Hi Hj. apply Hhere in Hi, Hj. lia.
Qed.

Lemma raised_pc prog : ∀ pc st p e,
  raised (run_from w pc prog st) = Some (p, e) → (pc ≤ p)%nat.
Proof.
  induction prog as [|[l s] rest IH]; simpl; intros pc st p e; [done|].
  destruct (exec_stmt w pc l s st) as [a st' t|e' st' t]; simpl.
  - intros H. apply IH in H. lia.
  - intros [= <- <-]. lia.
Qed.

(** If no statement succeeds after a failed call, a failed call in the
    trace is where the run raised. *)
Lemma failed_call_raises prog : ∀ pc st,
  run_sat (λ _ _ r, is_ok r = true → Forall (λ ev, call_failed ev = false) (events r))
    w pc prog st →
  ∀ p ev, In (p, ev) (trace (run_from w pc prog st)) → call_failed ev = true →
  ∃ e, raised (run_from w pc prog st) = Some (p, e).
Proof.
  induction prog as [|[l s] rest IH]; simpl; intros pc st; [done|].
  intros [H1 H2] p ev.
  destruct (exec_stmt w pc l s st) as [a st' t|e st' t]; simpl in *.
  - rewrite in_app_iff, in_map_iff. intros [(x & [= <- <-] & Hx)|H] Hf.
    + specialize (H1 eq_refl). rewrite List.Forall_forall in H1.
      apply H1 in Hx. congruence.
    + by eapply IH.
  - rewrite in_map_iff. intros (x & [= <- <-] & _) _. by exists e.
Qed.


(** A run that does not raise has, statement by statement, the effects
    every successful statement is known to have. *)
Lemma completed_kinds (k : nat → list ekind) prog : ∀ pc st,
  run_sat (λ pc _ r, is_ok r = true → map kind_of (events r) = k pc) w pc prog st →
  raised (run_from w pc prog st) = None →
  map (λ x : nat * event, (x.1, kind_of x.2)) (trace (run_from w pc prog st)) =
  flat_map (λ p, map (pair p) (k p)) (seq pc (length prog)).
Proof.
  induction prog as [|[l s] rest IH]; simpl; intros pc st; [done|].
  intros [H1 H2].
  destruct (exec_stmt w pc l s st) as [a st' t|e st' t]; simpl in *; [|done].
  intros Hr. rewrite map_app, map_map. simpl.
  rewrite <- (H1 eq_refl), map_map. f_equal. by apply IH.
Qed.

(** A shell command in the trace has the effect its statement is known
    to have when it succeeds. *)
Lemma shell_kinds (k : nat → list ekind) prog : ∀ pc st,
  run_sat (λ pc _ r, (is_ok r = true → map kind_of (events r) = k pc) ∧
                     (is_ok r = false → Forall (λ ev, is_shell ev = false) (events r)))
    w pc prog st →
  ∀ p ev, In (p, ev) (trace (run_from w pc prog st)) → is_shell ev = true →
  In (kind_of ev) (k p).
Proof.
  induction prog as [|[l s] rest IH]; simpl; intros pc st; [done|].
  intros [[H1 H1'] H2] p ev.
  destruct (exec_stmt w pc l s st) as [a st' t|e st' t]; simpl in *.
  - rewrite in_app_iff, in_map_iff. intros [(x & [= <- <-] & Hx)|H] Hs.
    + rewrite <- (H1 eq_refl). by apply in_map.
    + by eapply IH.
  - rewrite in_map_iff. intros (x & [= <- <-] & Hx) Hs.
    specialize (H1' eq_refl). rewrite List.Forall_forall in H1'.
    apply H1' in Hx. congruence.
Qed.

Lemma calls_at_app p (t1 t2 : list (nat * event)) :
  Notebook.calls_at p (t1 ++ t2) = (Notebook.calls_at p t1 ++ Notebook.calls_at p t2)%list.
Proof. unfold Notebook.calls_at. by rewrite List.filter_app, map_app. Qed.

Lemma calls_at_later p (tr : list (nat * event)) :
  (∀ x, In x tr → x.1 ≠ p) → Notebook.calls_at p tr = [].
Proof.
  unfold Notebook.calls_at. induction tr as [|x tr IH]; simpl; [done|].
  intros H. destruct (Nat.eqb_spec x.1 p) as [Heq|Hne].
  - exfalso. apply (H x); [by left|done].
  - simpl. apply IH. intros y Hy. apply H. by right.
Qed.

Lemma calls_at_here p (t : list event) :
  Notebook.calls_at p (map (pair p) t) = List.filter is_external_call t.
Proof.
  unfold Notebook.calls_at. induction t as [|ev t IH]; simpl; [done|].
  rewrite Nat.eqb_refl. simpl. destruct (is_external_call ev); simpl; by rewrite IH.
Qed.

(** If every statement makes at most one external call, the trace holds
    at most one external call per statement. *)
Lemma one_call_per_statement prog : ∀ pc st,
  run_sat (λ _ _ r, (length (List.filter is_external_call (events r)) ≤ 1)%nat) w pc prog st →
  ∀ p, (length (Notebook.calls_at p (trace (run_from w pc prog st))) ≤ 1)%nat.
Proof.
  induction prog as [|[l s] rest IH]; simpl; intros pc st; [intros; simpl; lia|].
  intros [H1 H2] p.
  destruct (exec_stmt w pc l s st) as [a st' t|e st' t]; simpl in *.
  - rewrite calls_at_app. destruct (decide (p = pc)) as [->|Hne].
    + rewrite calls_at_here, (calls_at_later pc (trace _)), app_nil_r; [done|].
      intros [p' ev] Hin. simpl. apply trace_pc in Hin. lia.
    + rewrite (calls_at_later p (map _ _)), app_nil_l; [by apply IH|].
      intros x. rewrite in_map_iff. intros (ev & <- & _). simpl. congruence.
  - destruct (decide (p = pc)) as [->|Hne].
    + by rewrite calls_at_here.
    + rewrite calls_at_later; [simpl; lia|].
      intros x. rewrite in_map_iff. intros (ev & <- & _). simpl. congruence.
Qed.

(** In a run that does not raise, what the last statement establishes
    holds of the final state. *)
Lemma completed_final (P : state → Prop) (n : nat) prog : ∀ pc st,
  prog ≠ [] →
  (pc + length prog = S n)%nat →
  run_sat (λ p _ r, p = n → is_ok r = true → P (post r)) w pc prog st →
  raised (run_from w pc prog st) = None →
  P (final (run_from w pc prog st)).
Proof.
  induction prog as [|[l s] rest IH]; simpl; intros pc st Hne Hn; [done|].
  intros [H1 H2].
  destruct (exec_stmt w pc l s st) as [a st' t|e st' t]; simpl in *; [|done].
  intros Hr. destruct rest as [|x rest].
  - simpl in *. apply H1; [lia|done].
  - apply IH; [done|simpl in *; lia|done|done].
Qed.

(** What every raising statement satisfies holds where a run raised, of
    the exception and of all the effects recorded for that statement. *)
Lemma raised_sat (P : nat → exn → list event → Prop) prog : ∀ pc st,
  run_sat (λ pc _ r, match r with Ok _ _ _ => True | Raised e _ tr => P pc e tr end)
    w pc prog st →
  ∀ p e, raised (run_from w pc prog st) = Some (p, e) →
  ∃ tr, P p e tr ∧ ∀ ev, In (p, ev) (trace (run_from w pc prog st)) → In ev tr.
Proof.
  induction prog as [|[l s] rest IH]; simpl; intros pc st; [done|].
  intros [H1 H2] p e.
  destruct (exec_stmt w pc l s st) as [a st' t|e' st' t]; simpl in *.
  - intros Hr. destruct (IH _ _ H2 _ _ Hr) as (tr & HP & Htr).
    exists tr. split; [done|]. intros ev. rewrite in_app_iff, in_map_iff.
    intros [(x & [= <- <-] & _)|H]; [|by apply Htr].
    apply raised_pc in Hr. lia.
  - intros [= <- <-]. exists t. split; [done|]. intros ev. rewrite in_map_iff.
    by intros (x & [= <-] & ?).
Qed.

(** An event of the trace that is not a failed call has a kind its
    statement is known to have when it succeeds, if raising statements
    record failed calls only. *)
Lemma ok_event_kinds (k : nat → list ekind) prog : ∀ pc st,
  run_sat (λ pc _ r, (is_ok r = true → map kind_of (events r) = k pc) ∧
                     (is_ok r = false → Forall (λ ev, call_failed ev = true) (events r)))
    w pc prog st →
  ∀ p ev, In (p, ev) (trace (run_from w pc prog st)) → call_failed ev = false →
  In (kind_of ev) (k p).
Proof.
  induction prog as [|[l s] rest IH]; simpl; intros pc st; [done|].
  intros [[H1 H1'] H2] p ev.
  destruct (exec_stmt w pc l s st) as [a st' t|e st' t]; simpl in *.
  - rewrite in_app_iff, in_map_iff. intros [(x & [= <- <-] & Hx)|H] Hs.
    + rewrite <- (H1 eq_refl). by apply in_map.
    + by eapply IH.
  - rewrite in_map_iff. intros (x & [= <- <-] & Hx) Hs.
    specialize (H1' eq_refl). rewrite List.Forall_forall in H1'.
    apply H1' in Hx. congruence.
Qed.

(** When the trace has an effect of statement [pc], every earlier
    statement succeeded, and the trace has the effects it is known to
    have when it succeeds. *)
Lemma earlier_statements_ran (k : nat → list ekind) prog : ∀ pc0 st,
  run_sat (λ pc _ r, is_ok r = true → map kind_of (events r) = k pc) w pc0 prog st →
  ∀ pc ev, In (pc, ev) (trace (run_from w pc0 prog st)) →
  ∀ p kd, (pc0 ≤ p < pc)%nat → In kd (k p) →
  ∃ ev', In (p, ev') (trace (run_from w pc0 prog st)) ∧ kind_of ev' = kd.
Proof.
  induction prog as [|[l s] rest IH]; simpl; intros pc0 st; [done|].
  intros [H1 H2] pc ev.
  destruct (exec_stmt w pc0 l s st) as [a st' t|e st' t]; simpl in *.
  - rewrite in_app_iff, in_map_iff. intros [(x & [= <- <-] & Hx)|H] p kd Hp Hk; [lia|].
    destruct (decide (p = pc0)) as [->|Hne].
    + rewrite <- (H1 eq_refl) in Hk. apply in_map_iff in Hk as (ev' & <- & Hin).
      exists ev'. split; [|done]. apply in_app_iff. left. by apply in_map.
    + destruct (IH _ _ H2 _ _ H p kd) as (ev' & Hin & Hkd); [lia|done|].
      exists ev'. split; [|done]. apply in_app_iff. by right.
  - rewrite in_map_iff. intros (x & [= <- <-] & _) p kd Hp. lia.
Qed.

End RunFacts.

(** * The run of the notebook, statement by statement *)

Section NotebookFacts.
Import Py Notebook.

Lemma named_statements :
  statement pc_check_output = nth_error cell_bootstrap 4 ∧
  statement pc_init = nth_error cell_bootstrap 9 ∧
  statement pc_overwrite = Some (environ_set "GRASS_OVERWRITE" (Str "1")) ∧
  statement pc_render = Some (environ_set "GRASS_RENDER_IMMEDIATE" (Str "cairo")).
Proof. by vm_compute. Qed.

Lemma lookup_setenv_eq k v (env : gmap string string) : setenv k v env !! k = Some v.
Proof. apply lookup_insert_eq. Qed.

Lemma lookup_setenv_ne k k' v (env : gmap string string) :
  k ≠ k' → setenv k v env !! k' = env !! k'.
Proof. apply lookup_insert_ne. Qed.

Lemma lookup_setenv_own k v x (env : gmap string string) :
  In k own_variables → ¬ In x own_variables → setenv k v env !! x = env !! x.
Proof. intros Hk Hx. apply lookup_setenv_ne. by intros ->. Qed.

Lemma lookup_apply_updates ups : ∀ (env : gmap string string) k,
  ¬ In k (map fst ups) → apply_updates ups env !! k = env !! k.
Proof.
  unfold apply_updates. induction ups as [|[k' v] ups IH]; simpl; intros env k Hk; [done|].
  rewrite IH by tauto. apply lookup_setenv_ne. tauto.
Qed.

Lemma run_sat_cons Q w pc l s rest st :
  (∀ r, r = exec_stmt w pc l s st →
        Q pc st r ∧ match r with
                    | Ok _ st' _ => run_sat Q w (S pc) rest st'
                    | Raised _ _ _ => True
                    end) →
  run_sat Q w pc ((l, s) :: rest) st.
Proof. intros H. exact (H _ eq_refl). Qed.

Lemma skipn_nth_error {A} (l : list A) : ∀ n x,
  nth_error l n = Some x → skipn n l = x :: skipn (S n) l.
Proof.
  induction l as [|a l IH]; intros [|n] x; simpl; try done.
  - by intros [= ->].
  - intros H. rewrite (IH n x H). by destruct l.
Qed.

(** The same step on the program from its [n]-th statement on. *)
Lemma run_sat_skipn Q w pc prog n l s st :
  nth_error prog n = Some (l, s) →
  (∀ r, r = exec_stmt w pc l s st →
        Q pc st r ∧ match r with
                    | Ok _ st' _ => run_sat Q w (S pc) (skipn (S n) prog) st'
                    | Raised _ _ _ => True
                    end) →
  run_sat Q w pc (skipn n prog) st.
Proof. intros Hn H. rewrite (skipn_nth_error _ _ _ Hn). by apply run_sat_cons. Qed.

Lemma run_sat_end Q w pc prog n st :
  nth_error prog n = None → run_sat Q w pc (skipn n prog) st.
Proof.
  intros Hn. apply nth_error_None in Hn. by rewrite skipn_all2.
Qed.

Opaque setenv apply_updates strip join.
Opaque module_found check_output_result init_result urlretrieve_result
  file_readable remove_ok system_status.

(** Case analysis on the answer of the world a statement waits for. *)
Ltac split_query H :=
  match type of H with
  | context [module_found ?w ?p ?m] => destruct (module_found w p m) eqn:?
  | context [check_output_result ?w ?pc ?l] => destruct (check_output_result w pc l) eqn:?
  | context [init_result ?w ?pc ?a ?b ?c ?d] => destruct (init_result w pc a b c d) eqn:?
  | context [urlretrieve_result ?w ?pc ?u] => destruct (urlretrieve_result w pc u) eqn:?
  | context [file_readable ?w ?pc ?f] => destruct (file_readable w pc f) eqn:?
  | context [remove_ok ?w ?pc ?f] => destruct (remove_ok w pc f) eqn:?
  end.

(** One statement: evaluate it on the current state, split on the answer
    of the world, prove the property with [tac], go on with the rest. *)
Ltac step_body tac :=
  let r := fresh "r" in
  let Hr := fresh "Hr" in
  intros r Hr; lazy in Hr;
  repeat (split_query Hr; lazy in Hr);
  subst r;
  (split; [ once (first [ solve [tac] | fail 10000 "statement property not proved" ])
          | cbv beta iota; try exact I ]).

Ltac step tac := simple apply run_sat_cons; step_body tac.

(** The same on a goal [run_sat Q w pc (skipn n prog) st], which keeps
    the program folded. *)
Ltac step_at tac :=
  first [ simple eapply run_sat_skipn; [ vm_compute; reflexivity | step_body tac ]
        | simple apply run_sat_end; vm_compute; reflexivity ].

Ltac guarded tac :=
  let H := fresh in
  intros H; first [ discriminate H | clear H; tac ].

Ltac control_tac :=
  unfold control_ok; cbv [is_ok events];
  split; [ guarded ltac:(repeat (once constructor)) | ];
  split; [ guarded ltac:(repeat (once constructor)) | ];
  split; [ cbv [List.filter is_external_call length]; lia | ];
  guarded ltac:(reflexivity).

Lemma program_control w env0 path0 :
  run_sat control_ok w 0 program (fresh env0 path0).
Proof.
  unfold fresh. change program with (skipn 0 program).
  repeat (step_at ltac:(idtac; control_tac)).
Qed.

Ltac solve_in := simpl; repeat (first [ left; reflexivity | right ]).

Ltac lookup_tac :=
  repeat (first
    [ rewrite lookup_setenv_own by (first [ assumption | solve_in ])
    | rewrite lookup_apply_updates by eauto ]);
  reflexivity.

Ltac variable_set_tac :=
  intros;
  first [ lia
        | repeat (rewrite lookup_setenv_ne by discriminate); apply lookup_setenv_eq ].

Ltac frame_tac := unfold env_frame, init_call, pc_init; intros; lookup_tac.

Ltac effect_tac :=
  lazymatch goal with
  | |- effect_ok _ _ _ (EvShell _ _ _) =>
      unfold effect_ok, overwrite_mode, pc_overwrite, pc_render;
      split; [ variable_set_tac | split; [ variable_set_tac | frame_tac ] ]
  | |- effect_ok _ _ _ (EvDownload _ _ _) => unfold effect_ok; solve_in
  | |- effect_ok _ _ _ (EvRemove _ _) =>
      unfold effect_ok, init_call, pc_init; do 2 eexists; split; [ eassumption | reflexivity ]
  | |- effect_ok _ _ _ _ => exact I
  end.

Ltac state_tac :=
  unfold state_ok; cbv [events post environ sys_path];
  split; [ repeat (once constructor; [ effect_tac | ]); once constructor | ];
  split; [ frame_tac
         | unfold path_ok, pc_check_output;
           first [ left; reflexivity
                 | right; eexists; split; [ eassumption | reflexivity ] ] ].

Lemma program_state w env0 path0 :
  run_sat (state_ok w env0 path0) w 0 program (fresh env0 path0).
Proof.
  unfold fresh. change program with (skipn 0 program).
  repeat (step_at ltac:(idtac; state_tac)).
Qed.

Ltac overwrite_tac :=
  unfold overwrite_mode in *;
  repeat (first [ rewrite lookup_setenv_ne by discriminate
                | rewrite lookup_apply_updates by eauto ]);
  first [ assumption | apply lookup_setenv_eq ].

Ltac started_tac :=
  unfold started; cbv [post globals environ];
  split; [ do 4 eexists; split;
           [ reflexivity | first [ left; reflexivity | right; reflexivity ] ]
         | overwrite_tac ].



Ltac startup_tac :=
  let Hp := fresh in
  let Hok := fresh in
  intros Hp Hok; first [ discriminate Hp | started_tac ].

(** When the first three cells have run without raising, the namespace
    is the one described and [GRASS_OVERWRITE] is [1]. *)
Lemma startup_steps w env0 path0 :
  run_sat (λ p _ r, p = 18%nat → is_ok r = true → started (post r))
    w 0 startup (fresh env0 path0).
Proof.
  unfold fresh.
  let p := eval vm_compute in startup in change startup with p.
  repeat (step ltac:(idtac; startup_tac)).
Qed.




Ltac raise_tac :=
  unfold raise_ok; cbv beta iota;
  first [ exact I
        | split; [ vm_compute; reflexivity | repeat (once constructor) ] ].

(** What the statements raise, for any world. *)
Lemma program_raises w env0 path0 :
  run_sat raise_ok w 0 program (fresh env0 path0).
Proof.
  unfold fresh. change program with (skipn 0 program).
  repeat (step_at ltac:(idtac; raise_tac)).
Qed.

Ltac session_event_tac :=
  lazymatch goal with
  | |- session_ok _ _ _ (EvSubprocess _ _ _) =>
      unfold session_ok, config_path, pc_check_output;
      split; [ reflexivity | split; [ reflexivity | symmetry; eassumption ] ]
  | |- session_ok _ _ _ (EvSessionInit _ _ _ _ _) =>
      unfold session_ok, config_path, init_call, pc_check_output, pc_init;
      eexists; split; [ eassumption | ];
      do 4 (split; [ reflexivity | ]); symmetry; eassumption
  | |- session_ok _ _ _ (EvShell _ _ _) =>
      unfold session_ok, config_path, init_call, pc_check_output, pc_init, pc_demo_shell;
      first [ left; split; reflexivity
            | right; do 2 eexists;
              split; [ eassumption | split; [ eassumption | reflexivity ] ] ]
  | |- session_ok _ _ _ (EvRemove _ _) =>
      unfold session_ok, config_path, init_call, pc_check_output, pc_init;
      do 2 eexists; split; [ eassumption | split; [ eassumption | reflexivity ] ]
  | |- session_ok _ _ _ _ => exact I
  end.

Ltac finished_tac :=
  unfold finished, config_path, init_call, pc_check_output, pc_init;
  cbv [environ sys_path globals raise_on_error capture_stderr];
  do 2 eexists; split; [ eassumption | ]; split; [ eassumption | ];
  do 5 (split; [ reflexivity | ]); reflexivity.

Ltac session_tac :=
  unfold session_state_ok; cbv [events post is_ok];
  split; [ repeat (once constructor; [ session_event_tac | ]); once constructor
         | unfold pc_teardown; guarded ltac:(guarded ltac:(finished_tac)) ].

(** Where the arguments of the external calls come from, and the state a
    completed run ends in, for any world. *)
Lemma program_session w env0 path0 :
  run_sat (session_state_ok w env0 path0) w 0 program (fresh env0 path0).
Proof.
  unfold fresh. change program with (skipn 0 program).
  repeat (step_at ltac:(idtac; session_tac)).
Qed.

Ltac restart_tac :=
  split;
  [ let Hp := fresh in
    let Hok := fresh in
    intros Hp Hok;
    first [ exfalso; lia
          | discriminate Hok
          | unfold restarted; cbv [post sys_path globals environ];
            do 2 eexists; split; [ eassumption | ]; split; [ eassumption | ];
            do 3 (split; [ reflexivity | ]); reflexivity ]
  | cbv [events]; repeat (once constructor) ].

(** The cell that starts the session, run again after the first three
    cells. *)
Lemma bootstrap_restarts w t st :
  started st →
  run_sat (λ p _ r, (p = (9 + t)%nat → is_ok r = true → restarted w t st (post r)) ∧
                    Forall (λ ev, is_remove ev = false) (events r))
    w t (mark_last cell_bootstrap) st.
Proof.
  destruct st as [gl env sp ro cs].
  intros ((status & gisbase & rcfile & more & Hg & Hm) & Henv).
  cbn [globals environ] in *. subst gl. unfold namespace.
  match goal with
  | |- run_sat _ _ _ ?c _ => let c' := eval vm_compute in c in change c with c'
  end.
  destruct Hm as [-> | ->]; cbn [app]; repeat (step ltac:(idtac; restart_tac)).
Qed.

Transparent setenv apply_updates strip join.
Transparent module_found check_output_result init_result urlretrieve_result
  file_readable remove_ok system_status.

End NotebookFacts.

(** * Properties of the run of the buffers and cost-surfaces notebook *)

Section NotebookRun.
Import Py Notebook.

Lemma run_control w env0 path0 :
  run_sat control_ok w 0 program (fresh env0 path0).
Proof. apply program_control. Qed.

Lemma lookup_nth_error {A} (l : list A) : ∀ i, l !! i = nth_error l i.
Proof. induction l as [|a l IH]; intros [|i]; simpl; auto. Qed.

Lemma statement_in pc s : statement pc = Some s → ∃ l, In (l, s) program ∧ nth_error program pc = Some (l, s).
Proof.
  unfold statement. destruct (program !! pc) as [[l s']|] eqn:H; [|done].
  intros [= <-]. exists l. rewrite lookup_nth_error in H. split; [by eapply nth_error_In|done].
Qed.




Lemma run_kinds w env0 path0 :
  raised (run w env0 path0) = None →
  map (λ x : nat * event, (x.1, kind_of x.2)) (trace (run w env0 path0)) = reference_kinds.
Proof.
  intros Hr. unfold run in *.
  rewrite (completed_kinds w kinds_at program 0 (fresh env0 path0)); [by vm_compute| |done].
  eapply run_sat_mono; [|apply run_control]. intros ??? H. apply H.
Qed.

Lemma fetches_kinds f (tr : list (nat * event)) :
  fetches f tr = kind_fetches f (map (λ x : nat * event, (x.1, kind_of x.2)) tr).
Proof.
  unfold fetches, kind_fetches. induction tr as [|[p ev] tr IH]; simpl; [done|].
  destruct ev; simpl; try done. destruct (String.eqb filename f); simpl; lia.
Qed.

Lemma displays_kinds (tr : list (nat * event)) :
  displays tr = kind_displays (map (λ x : nat * event, (x.1, kind_of x.2)) tr).
Proof.
  unfold displays, kind_displays. induction tr as [|[p ev] tr IH]; simpl; [done|].
  destruct ev; simpl; first [ exact IH | f_equal; exact IH ].
Qed.

(** In the run of the fair world, which completes, [noise_cats.txt] is
    fetched by two download calls. *)
Lemma noise_cats_fetched_twice :
  raised (run fair_world ∅ []) = None ∧
  fetches "noise_cats.txt" (trace (run fair_world ∅ [])) = 2%nat.
Proof. by vm_compute. Qed.

(** C2, the part that holds and the defect.  No statement is executed
    twice and no statement makes more than one external call.  In a run
    that completes, the download cell fetches [friction_color.txt] by one
    call, but each of the other four text files by two: the cell lists
    nine [urlretrieve] calls for five files. *)
Theorem C2_one_call_per_statement_nine_downloads w env0 path0 :
  raised (run w env0 path0) = None →
  NoDup (executed (run w env0 path0)) ∧
  (∀ pc, (length (calls_at pc (trace (run w env0 path0))) ≤ 1)%nat) ∧
  map (λ f, fetches f (trace (run w env0 path0))) text_files = [2; 2; 1; 2; 2]%nat.
Proof.
  intros Hr. split; [|split].
  - unfold run. destruct (run_executed w program 0 (fresh env0 path0)) as (n & -> & _).
    apply NoDup_ListNoDup, seq_NoDup.
  - unfold run. apply one_call_per_statement.
    eapply run_sat_mono; [|apply run_control]. intros ??? H. apply H.
  - unfold text_files. cbn [map]. rewrite !fetches_kinds, run_kinds by done. by vm_compute.
Qed.

Lemma C2_witness :
  raised (run fair_world ∅ []) = None ∧
  NoDup (executed (run fair_world ∅ [])) ∧
  (∀ pc, (length (calls_at pc (trace (run fair_world ∅ []))) ≤ 1)%nat) ∧
  map (λ f, fetches f (trace (run fair_world ∅ []))) text_files = [2; 2; 1; 2; 2]%nat.
Proof.
  assert (Hr : raised (run fair_world ∅ []) = None) by (vm_compute; reflexivity).
  split; [exact Hr|].
  exact (C2_one_call_per_statement_nine_downloads fair_world ∅ [] Hr).
Defined.



Lemma run_completed_executed w env0 path0 :
  raised (run w env0 path0) = None →
  executed (run w env0 path0) = seq 0 (length program).
Proof.
  unfold run. intros Hr.
  destruct (run_executed w program 0 (fresh env0 path0)) as (n & -> & _ & Hn).
  rewrite Hr in Hn. by rewrite Hn.
Qed.



(** C4 (as stated), refuted.  Statement 2 of the notebook is the
    assignment [c = a * b]: it is none of the four kinds, it holds an
    arithmetic operator, and the run itself computes its value, 42. *)
Lemma C4_counterexample :
  statement 2 = Some (Assign (Name "c") (BinOp (Name "a") Mult (Name "b"))) ∧
  orchestration (classify (Assign (Name "c") (BinOp (Name "a") Mult (Name "b")))) = false ∧
  stmt_has_arith (Assign (Name "c") (BinOp (Name "a") Mult (Name "b"))) = true ∧
  lookup_var "c" (globals (final (run fair_world ∅ []))) = Some (VInt 42).
Proof. by vm_compute. Qed.

(** C4 (as amended).  Every statement after the demonstration cell is an
    environment-variable assignment, a download, an external command
    invocation or an image display, or else an import, the extension of
    the module search path, a call that starts or configures the session,
    or the removal of the session rc file; none of them holds an
    arithmetic operator. *)
Theorem C4_orchestration_after_demo_cell pc s :
  statement pc = Some s →
  (length cell_demo ≤ pc)%nat →
  (orchestration (classify s) || session_glue (classify s)) = true ∧
  stmt_has_arith s = false.
Proof.
  intros Hs Hpc.
  assert (Hall : forallb (λ p, match statement p with
                               | Some s' =>
                                   (orchestration (classify s') || session_glue (classify s'))
                                   && negb (stmt_has_arith s')
                               | None => true
                               end) (seq (length cell_demo) (length program)) = true)
    by (by vm_compute).
  rewrite forallb_forall in Hall. specialize (Hall pc). rewrite Hs in Hall.
  assert (Hlt : (pc < length program)%nat).
  { unfold statement in Hs. destruct (program !! pc) eqn:E; [|done].
    by eapply lookup_lt_Some. }
  apply andb_prop in Hall as [H1 H2]; [|apply in_seq; lia].
  split; [done|]. by apply negb_true_iff.
Qed.

Lemma C4_witness :
  statement 33 = Some (Bang "r.buffer lakes output=lakes_buff distances=60,120,240,500") ∧
  (length cell_demo ≤ 33)%nat ∧
  (orchestration (classify (Bang "r.buffer lakes output=lakes_buff distances=60,120,240,500"))
   || session_glue (classify (Bang "r.buffer lakes output=lakes_buff distances=60,120,240,500")))
  = true ∧
  stmt_has_arith (Bang "r.buffer lakes output=lakes_buff distances=60,120,240,500") = false.
Proof.
  assert (Hs : statement 33 =
               Some (Bang "r.buffer lakes output=lakes_buff distances=60,120,240,500"))
    by (vm_compute; reflexivity).
  assert (Hpc : (length cell_demo ≤ 33)%nat) by (vm_compute; lia).
  split; [exact Hs|]. split; [exact Hpc|].
  exact (C4_orchestration_after_demo_cell 33 _ Hs Hpc).
Defined.

Lemma run_state w env0 path0 :
  run_sat (state_ok w env0 path0) w 0 program (fresh env0 path0).
Proof. apply program_state. Qed.

Lemma run_effects w env0 path0 :
  Forall (λ x : nat * event, effect_ok w env0 x.1 x.2) (trace (run w env0 path0)).
Proof.
  unfold run. apply run_sat_trace.
  eapply run_sat_mono; [|apply run_state]. intros ??? H. apply H.
Qed.




Lemma not_in_by_eqb (n : nat) (l : list nat) :
  forallb (λ p, negb (Nat.eqb p n)) l = true → ¬ In n l.
Proof.
  intros H Hin. rewrite forallb_forall in H. apply H in Hin.
  by rewrite Nat.eqb_refl in Hin.
Qed.

Lemma not_in_by_string_eqb (k : string) (l : list string) :
  forallb (λ s, negb (String.eqb s k)) l = true → ¬ In k l.
Proof.
  intros H Hin. rewrite forallb_forall in H. apply H in Hin.
  by rewrite String.eqb_refl in Hin.
Qed.

Lemma images_shown_kinds (tr : list (nat * event)) :
  images_shown tr = kind_images_shown (map (λ x : nat * event, (x.1, kind_of x.2)) tr).
Proof.
  unfold images_shown, kind_images_shown. induction tr as [|[p ev] tr IH]; simpl; [done|].
  destruct ev as [| | | | | | |v]; simpl; try exact IH.
  destruct v; simpl; first [ exact IH | f_equal; exact IH ].
Qed.

Lemma kinds_at_in p k : In k (kinds_at p) → In (p, k) reference_kinds.
Proof.
  unfold kinds_at. rewrite in_map_iff. intros ([p' k'] & <- & Hin).
  apply filter_In in Hin as [Hin Hp]. simpl in *.
  apply Nat.eqb_eq in Hp. by subst.
Qed.

Lemma run_shell_kinds w env0 path0 pc ev :
  In (pc, ev) (trace (run w env0 path0)) → is_shell ev = true →
  In (pc, kind_of ev) reference_kinds.
Proof.
  intros Hin Hs. apply kinds_at_in. unfold run in Hin.
  eapply shell_kinds; [|exact Hin|exact Hs].
  eapply run_sat_mono; [|apply run_control]. intros ??? H. split; apply H.
Qed.

(** C6, the part that holds and the defect.  Every display command of
    the run is started with [GRASS_RENDER_IMMEDIATE] set, so it renders
    into a file, and that file is [map.png] unless the initial
    environment or the session start names another one.  In a run that
    completes, statement 128 is the [Image(filename="map.png")] that
    follows the display commands 125 to 127: it is executed and reads the
    file, but it is not the last statement of its cell and nothing is
    shown for it; the images shown are those of the last statements of
    the cells, 35, 43, 55, 62, 71, 81, 95, 106, 118 and 131. *)
Theorem C6_image_in_mid_cell_is_not_shown w env0 path0 :
  raised (run w env0 path0) = None →
  (∀ pc cmd env status,
     In (pc, EvShell cmd env status) (trace (run w env0 path0)) →
     is_display_command cmd = true →
     renders_to_file env ∧
     (env0 !! "GRASS_RENDER_FILE" = None →
      (∀ g s, init_call w g = Some s → ¬ In "GRASS_RENDER_FILE" (map fst (env_updates s))) →
      render_file env = "map.png")) ∧
  statement 128 = Some (show_image "map.png") ∧
  In 128%nat (executed (run w env0 path0)) ∧
  In (128%nat, KReadFile "map.png")
     (map (λ x : nat * event, (x.1, kind_of x.2)) (trace (run w env0 path0))) ∧
  ¬ In 128%nat (map fst (images_shown (trace (run w env0 path0)))) ∧
  images_shown (trace (run w env0 path0)) =
    [ (35%nat, "map.png"); (43%nat, "map.png"); (55%nat, "map.png"); (62%nat, "map.png");
      (71%nat, "map.png"); (81%nat, "map.png"); (95%nat, "map.png"); (106%nat, "map.png");
      (118%nat, "map.png"); (131%nat, "map.png") ].
Proof.
  intros Hr. split.
  { intros pc cmd env status Hin Hd.
    pose proof (run_effects w env0 path0) as He. rewrite List.Forall_forall in He.
    specialize (He _ Hin). simpl in He. destruct He as (_ & Him & Hf).
    apply run_shell_kinds in Hin; [|done]. simpl in Hin.
    assert (Hall : forallb (λ x : nat * ekind,
                     match x.2 with
                     | KShell c => implb (is_display_command c) (Nat.ltb pc_render x.1)
                     | _ => true
                     end) reference_kinds = true) by (by vm_compute).
    rewrite forallb_forall in Hall. specialize (Hall _ Hin). simpl in Hall.
    rewrite Hd in Hall. apply Nat.ltb_lt in Hall.
    split.
    - unfold renders_to_file. rewrite (Him Hall). by eexists.
    - intros H0 Hinit. unfold render_file. rewrite (Hf "GRASS_RENDER_FILE").
      + by rewrite H0.
      + apply not_in_by_string_eqb. by vm_compute.
      + exact Hinit. }
  rewrite images_shown_kinds, run_kinds, run_completed_executed by done.
  split; [by vm_compute|]. split; [apply in_seq; vm_compute; lia|].
  split; [apply nth_error_In with (n := 120%nat); by vm_compute|].
  split; [|by vm_compute].
  apply not_in_by_eqb. by vm_compute.
Qed.

Lemma C6_witness :
  raised (run fair_world ∅ []) = None ∧
  In 128%nat (executed (run fair_world ∅ [])) ∧
  ¬ In 128%nat (map fst (images_shown (trace (run fair_world ∅ [])))).
Proof.
  assert (Hr : raised (run fair_world ∅ []) = None) by (vm_compute; reflexivity).
  split; [exact Hr|].
  destruct (C6_image_in_mid_cell_is_not_shown fair_world ∅ [] Hr)
    as (_ & _ & H1 & _ & H2 & _).
  exact (conj H1 H2).
Defined.

(** The cells import no module for threads, process pools or
    asynchronous calls, and no shell line puts a command in the
    background; the effects of a run are recorded statement by statement,
    in the order of the statements. *)
Remark statements_run_one_after_the_other w env0 path0 :
  imported_modules =
    ["os"; "sys"; "subprocess"; "IPython.display"; "grass.script"; "grass.script.setup";
     "urllib"] ∧
  existsb unquoted_ampersand shell_lines = false ∧
  ∀ i j x y, (i < j)%nat →
    trace (run w env0 path0) !! i = Some x →
    trace (run w env0 path0) !! j = Some y →
    (x.1 ≤ y.1)%nat.
Proof.
  split; [by vm_compute|]. split; [by vm_compute|].
  unfold run. apply trace_in_statement_order.
Qed.


Lemma startup_started w env0 path0 :
  raised (run_from w 0 startup (fresh env0 path0)) = None →
  started (final (run_from w 0 startup (fresh env0 path0))).
Proof.
  apply (completed_final w started 18); [by vm_compute|by vm_compute|].
  apply startup_steps.
Qed.



End NotebookRun.

(** * The speed and travel-time layers *)

Section MapcalcFacts.
Import Mapcalc.

Lemma eval_streets_speed (maps : gmap string raster) (tmp : raster) (c : cell) :
  maps !! "streets_speedtmp" = Some tmp →
  eval maps c streets_speed =
  match tmp c with None => Some (inject_Z 5) | Some v => Some v end.
Proof.
  intros H. unfold streets_speed. cbn [eval]. unfold raster in *. rewrite H.
  destruct (tmp c) as [v|]; reflexivity.
Qed.

Lemma r_mapcalc_streets_speed (ms : mapset) (tmp : raster) :
  rasters ms !! "streets_speedtmp" = Some tmp →
  r_mapcalc "streets_speed" streets_speed ms =
  Some {| region := region ms;
          rasters := <["streets_speed" :=
                         λ c, if region ms c then eval (rasters ms) c streets_speed else None]>
                       (rasters ms) |}.
Proof.
  intros H. unfold r_mapcalc, streets_speed.
  cbn [maps_of app forallb]. unfold raster in *. rewrite H.
  rewrite bool_decide_eq_true_2 by eauto. reflexivity.
Qed.

(** C10.  After [r.mapcalc "streets_speed = if(isnull(streets_speedtmp),5,streets_speedtmp)"]
    (statement 66) a cell of the region holds 5 where the rasterised
    speed was null and the rasterised speed elsewhere, so it is not
    null; the region is not changed before
    [r.mapcalc "streets_travtime = 0.018641/streets_speed"] (statement
    72), whose divisor is that layer: at every cell of the region the
    division is applied to a divisor that is not null. *)
Theorem C10_divisor_is_not_null (ms : mapset) (tmp : raster) (c : cell) :
  rasters ms !! "streets_speedtmp" = Some tmp →
  region ms c = true →
  Notebook.statement 66 = Some (Py.Bang (command "streets_speed" streets_speed)) ∧
  Notebook.statement 72 = Some (Py.Bang (command "streets_travtime" streets_travtime)) ∧
  (∀ p line, (66 < p < 72)%nat → Notebook.statement p = Some (Py.Bang line) →
             Notebook.command_name line ≠ "g.region") ∧
  ∃ ms1 ms2 speed,
    r_mapcalc "streets_speed" streets_speed ms = Some ms1 ∧
    r_mapcalc "streets_travtime" streets_travtime ms1 = Some ms2 ∧
    speed_then_travtime ms = Some ms2 ∧
    region ms1 = region ms ∧
    rasters ms1 !! "streets_speed" = Some speed ∧
    (tmp c = None → speed c = Some (inject_Z 5)) ∧
    (∀ v, tmp c = Some v → speed c = Some v) ∧
    divisor streets_travtime = Some (Map "streets_speed") ∧
    eval (rasters ms1) c (Map "streets_speed") = speed c ∧
    speed c ≠ None.
Proof.
  intros Htmp Hc. unfold raster in *.
  split; [by vm_compute|]. split; [by vm_compute|]. split.
  { intros p line Hp Hs.
    assert (Hall : forallb (λ p', match Notebook.statement p' with
                                  | Some (Py.Bang l) =>
                                      negb (String.eqb (Notebook.command_name l) "g.region")
                                  | _ => true
                                  end) (seq 67 5) = true) by (by vm_compute).
    rewrite forallb_forall in Hall. specialize (Hall p). rewrite Hs in Hall.
    intros Heq. rewrite Heq in Hall.
    assert (Hin : In p (seq 67 5)) by (apply in_seq; lia).
    apply Hall in Hin. by vm_compute in Hin. }
  pose proof (r_mapcalc_streets_speed ms tmp Htmp) as H1.
  set (speed := λ c', if region ms c' then eval (rasters ms) c' streets_speed else None) in *.
  set (ms1 := {| region := region ms; rasters := <["streets_speed" := speed]> (rasters ms) |})
    in *.
  assert (H2 : ∃ ms2, r_mapcalc "streets_travtime" streets_travtime ms1 = Some ms2).
  { unfold r_mapcalc, streets_travtime. cbn [maps_of app forallb].
    rewrite bool_decide_eq_true_2; [cbn [andb]; eauto|].
    exists speed. apply lookup_insert_eq. }
  destruct H2 as [ms2 H2].
  assert (Hspeed : speed c = match tmp c with None => Some (inject_Z 5) | Some v => Some v end).
  { unfold speed. rewrite Hc. by apply eval_streets_speed. }
  exists ms1, ms2, speed.
  split; [done|]. split; [done|].
  split; [unfold speed_then_travtime; rewrite H1; exact H2|].
  split; [done|]. split; [apply lookup_insert_eq|].
  split; [intros Hn; by rewrite Hspeed, Hn|].
  split; [intros v Hv; by rewrite Hspeed, Hv|].
  split; [done|].
  split.
  { cbn [eval]. replace (rasters ms1 !! "streets_speed") with (Some speed); [done|].
    symmetry. apply lookup_insert_eq. }
  rewrite Hspeed. by destruct (tmp c).
Qed.

Lemma C10_witness :
  rasters two_cells !! "streets_speedtmp"
    = Some (λ c : cell, if Z.eqb c.2 0 then Some (inject_Z 35) else None) ∧
  region two_cells (0, 1) = true ∧
  ∃ ms1 speed,
    r_mapcalc "streets_speed" streets_speed two_cells = Some ms1 ∧
    rasters ms1 !! "streets_speed" = Some speed ∧
    speed (0, 1) = Some (inject_Z 5) ∧
    speed (0, 1) ≠ None.
Proof.
  assert (H1 : rasters two_cells !! "streets_speedtmp"
               = Some (λ c : cell, if Z.eqb c.2 0 then Some (inject_Z 35) else None))
    by (vm_compute; reflexivity).
  assert (H2 : region two_cells (0, 1) = true) by reflexivity.
  split; [exact H1|]. split; [exact H2|].
  destruct (C10_divisor_is_not_null two_cells _ (0, 1) H1 H2)
    as (_ & _ & _ & ms1 & ms2 & speed & Ha & _ & _ & _ & Hb & Hc & _ & _ & _ & Hd).
  exists ms1, speed. split; [exact Ha|]. split; [exact Hb|].
  split; [exact (Hc eq_refl)|exact Hd].
Defined.

End MapcalcFacts.

(** * The fixture cycle of the example test class *)

Section GunittestFacts.
Import Gunittest.

Lemma glob_star_any : ∀ t, glob "*" t = true.
Proof.
  induction t as [|c t IH]; [done|].
  change (glob "*" (String c t)) with (glob "" (String c t) || glob "*" t).
  rewrite IH. apply orb_true_r.
Qed.

(** A pattern without wildcards followed by a star matches the names
    that start with it. *)
Lemma glob_prefix_star (p : string) :
  forallb (λ c, negb (Ascii.eqb c "*") && negb (Ascii.eqb c "?")) (list_ascii_of_string p)
    = true →
  ∀ t, glob (p +:+ "*") t = true ↔ ∃ rest, t = p +:+ rest.
Proof.
  induction p as [|c p IH]; intros Hp t.
  - change ("" +:+ "*") with "*". rewrite glob_star_any. split; [by exists t|done].
  - simpl in Hp. apply andb_prop in Hp as [Hc Hp]. apply andb_prop in Hc as [Hs Hq].
    apply negb_true_iff in Hs, Hq.
    change (String c p +:+ "*") with (String c (p +:+ "*")).
    simpl glob. rewrite Hs, Hq.
    destruct t as [|d t].
    + split; [done|]. by intros [rest ?].
    + rewrite andb_true_iff, (IH Hp t). split.
      * intros [Hcd [rest ->]]. apply Ascii.eqb_eq in Hcd as ->. by exists rest.
      * intros [rest Hr]. simpl in Hr. injection Hr as -> ->.
        split; [apply Ascii.eqb_refl|by exists rest].
Qed.

Lemma glob_prefix n : glob (prefix +:+ "*") n = true ↔ has_prefix n.
Proof. apply glob_prefix_star. by vm_compute. Qed.

Lemma not_elem_of_keep (names : gset string) n :
  has_prefix n → n ∉ keep (prefix +:+ "*") names.
Proof.
  intros Hn. unfold keep. rewrite elem_of_filter. intros [Hg _].
  apply glob_prefix in Hn. congruence.
Qed.

Lemma tearDown_spec tk ms :
  runModule tk tearDown ms =
  Some {| rasters := keep (prefix +:+ "*") (rasters ms);
          vectors := keep (prefix +:+ "*") (vectors ms) |}.
Proof. reflexivity. Qed.

Lemma setUp_creates tk ms ms1 :
  runModule tk setUp ms = Some ms1 →
  (∀ n, n ∈ rasters ms1 → n ∉ rasters ms → has_prefix n) ∧
  (∀ n, n ∈ vectors ms1 → n ∉ vectors ms → has_prefix n).
Proof.
  unfold setUp. simpl. case_bool_decide; [|done]. intros [= <-]. simpl. split.
  - intros n Hin Hnot. apply elem_of_union in Hin as [Hin|Hin]; [|done].
    apply elem_of_list_to_set, list_elem_of_In, in_map_iff in Hin as (s & <- & _).
    by exists ("output_viewshed" +:+ s).
  - intros n Hin Hnot. apply elem_of_union in Hin as [Hin|Hin]; [|done].
    apply elem_of_singleton in Hin as ->. by exists "output_points".
Qed.

(** C9.  When a test method has run (its [setUp] succeeded), the mapset
    left by the cycle holds no raster and no vector map whose name starts
    with [test_rviewshedpoints_]; every map [setUp] created has such a
    name, so none of them is present in that mapset, which is the one
    the [setUp] of the next test method runs on. *)
Theorem C9_no_test_map_survives_tearDown tk body ms ms1 :
  runModule tk setUp ms = Some ms1 →
  (∀ n, has_prefix n →
        (n ∉ rasters (after_test tk body ms)) ∧ (n ∉ vectors (after_test tk body ms))) ∧
  (∀ n, n ∈ rasters ms1 → n ∉ rasters ms → n ∉ rasters (after_test tk body ms)) ∧
  (∀ n, n ∈ vectors ms1 → n ∉ vectors ms → n ∉ vectors (after_test tk body ms)) ∧
  (∀ next rest,
     snd (run_tests tk (body :: next :: rest) ms) =
     snd (run_tests tk (next :: rest) (after_test tk body ms))).
Proof.
  intros Hs.
  assert (Hcycle : after_test tk body ms =
                   {| rasters := keep (prefix +:+ "*") (rasters ms1);
                      vectors := keep (prefix +:+ "*") (vectors ms1) |}).
  { unfold after_test, run_test. rewrite Hs, tearDown_spec. reflexivity. }
  destruct (setUp_creates tk ms ms1 Hs) as [Hr Hv].
  split; [|split; [|split]].
  - intros n Hn. rewrite Hcycle. simpl. split; by apply not_elem_of_keep.
  - intros n Hin Hnot. rewrite Hcycle. simpl. apply not_elem_of_keep. by apply Hr.
  - intros n Hin Hnot. rewrite Hcycle. simpl. apply not_elem_of_keep. by apply Hv.
  - intros next rest. unfold after_test.
    change (run_tests tk (body :: next :: rest) ms) with
      (let (v, ms') := run_test tk body ms in
       let (vs, ms'') := run_tests tk (next :: rest) ms' in (v :: vs, ms'')).
    destruct (run_test tk body ms) as [v ms']. cbn [fst snd].
    by destruct (run_tests tk (next :: rest) ms').
Qed.

Lemma C9_witness :
  runModule two_viewsheds setUp class_fixture
    = Some {| rasters := {[prefix +:+ "output_viewshed_1"; prefix +:+ "output_viewshed_2";
                           "elevation"]};
              vectors := {[prefix +:+ "output_points"; prefix +:+ "input_points"]} |} ∧
  (prefix +:+ "output_viewshed_1" ∉ rasters (after_test two_viewsheds test_outputs_exists class_fixture)) ∧
  (prefix +:+ "output_points" ∉ vectors (after_test two_viewsheds test_outputs_exists class_fixture)).
Proof.
  assert (Hs : runModule two_viewsheds setUp class_fixture
    = Some {| rasters := {[prefix +:+ "output_viewshed_1"; prefix +:+ "output_viewshed_2";
                           "elevation"]};
              vectors := {[prefix +:+ "output_points"; prefix +:+ "input_points"]} |})
    by (vm_compute; reflexivity).
  split; [exact Hs|].
  destruct (C9_no_test_map_survives_tearDown two_viewsheds test_outputs_exists _ _ Hs)
    as (H & _).
  split.
  - exact (proj1 (H _ (ex_intro _ "output_viewshed_1" eq_refl))).
  - exact (proj2 (H _ (ex_intro _ "output_points" eq_refl))).
Defined.

(** The pattern of [tearDown] also matches the points map that
    [setUpClass] created, so the [setUp] of the next test method finds
    no input and raises. *)
Remark tearDown_removes_class_fixture tk body next ms ms1 :
  runModule tk setUp ms = Some ms1 →
  run_test tk next (after_test tk body ms) = (Errored, after_test tk body ms).
Proof.
  intros Hs.
  assert (Hcycle : after_test tk body ms =
                   {| rasters := keep (prefix +:+ "*") (rasters ms1);
                      vectors := keep (prefix +:+ "*") (vectors ms1) |}).
  { unfold after_test, run_test. rewrite Hs, tearDown_spec. reflexivity. }
  rewrite Hcycle. unfold run_test at 1. unfold setUp. simpl.
  rewrite bool_decide_eq_false_2; [done|].
  intros [_ Hin]. revert Hin. apply not_elem_of_keep. by exists "input_points".
Qed.

End GunittestFacts.

(** * More on the run of the buffers and cost-surfaces notebook *)

Section NotebookMore.
Import Py Notebook.

Lemma run_raises w env0 path0 :
  run_sat raise_ok w 0 program (fresh env0 path0).
Proof. apply program_raises. Qed.

Lemma run_session w env0 path0 :
  run_sat (session_state_ok w env0 path0) w 0 program (fresh env0 path0).
Proof. apply program_session. Qed.


Lemma run_raised_at w env0 path0 pc e :
  raised (run w env0 path0) = Some (pc, e) →
  raise_at pc e = true ∧
  (∀ ev, In (pc, ev) (trace (run w env0 path0)) → call_failed ev = true).
Proof.
  unfold run. intros Hr.
  destruct (raised_sat w (λ p e' tr, raise_at p e' = true ∧
                                     Forall (λ ev, call_failed ev = true) tr)
              program 0 (fresh env0 path0)) with (p := pc) (e := e)
    as (tr & [Hat Hall] & Htr); [apply run_raises|done|].
  split; [done|].
  intros ev Hin. rewrite List.Forall_forall in Hall. by apply Hall, Htr.
Qed.



Lemma in_reference_kinds_at p k : In (p, k) reference_kinds → In k (kinds_at p).
Proof.
  intros H. unfold kinds_at. apply in_map_iff. exists (p, k). split; [done|].
  apply filter_In. split; [done|]. apply Nat.eqb_refl.
Qed.

Lemma run_event_kinds w env0 path0 pc ev :
  In (pc, ev) (trace (run w env0 path0)) → call_failed ev = false →
  In (pc, kind_of ev) reference_kinds.
Proof.
  intros Hin Hs. apply kinds_at_in. unfold run in Hin.
  eapply ok_event_kinds; [|exact Hin|exact Hs].
  assert (H : run_sat (λ pc st r, control_ok pc st r ∧ raise_ok pc st r)
                w 0 program (fresh env0 path0)).
  { clear. generalize (run_control w env0 path0) (run_raises w env0 path0).
    generalize (fresh env0 path0) 0%nat. induction program as [|[l s] rest IH]; [done|].
    intros st pc [H1 H2] [H3 H4]. simpl. split; [done|].
    destruct (exec_stmt w pc l s st); [by apply IH|done]. }
  eapply run_sat_mono; [|exact H]. intros p st r [Hc Hr]. split; [apply Hc|].
  intros Hok. destruct r; [done|]. apply Hr.
Qed.

(** X2.  The session rc file is removed only by a run that completes:
    a run that completes removes the file whose path the session start
    returned, and when any statement raises, nothing has been removed. *)
Theorem session_file_removed_only_when_run_completes w env0 path0 :
  (raised (run w env0 path0) = None →
   ∃ out s, config_path w = Some out ∧ init_call w (strip out) = Some s ∧
            In (pc_teardown, EvRemove (rc_path s) true) (trace (run w env0 path0))) ∧
  (∀ pc p, In (pc, EvRemove p true) (trace (run w env0 path0)) →
           pc = pc_teardown ∧ raised (run w env0 path0) = None).
Proof.
  split.
  - intros Hr.
    assert (Hk : In (pc_teardown, KRemove)
                   (map (λ x : nat * event, (x.1, kind_of x.2)) (trace (run w env0 path0)))).
    { rewrite run_kinds by done. apply nth_error_In with (n := 125%nat). by vm_compute. }
    apply in_map_iff in Hk as ([p ev] & Heq & Hin). simpl in Heq.
    injection Heq as -> Hkind. destruct ev; try discriminate Hkind.
    pose proof Hin as Hs. unfold run in Hs.
    apply (proj1 (List.Forall_forall _ _)
             (run_sat_trace w (session_ok w env0) program 0 (fresh env0 path0)
                ltac:(eapply run_sat_mono; [|apply run_session]; intros ??? H; apply H))) in Hs.
    simpl in Hs. destruct Hs as (out & s & Ho & Hi & ->).
    exists out, s. split; [done|]. split; [done|].
    destruct ok; [done|].
    destruct (failed_call_raises w program 0 (fresh env0 path0)) with (p := pc_teardown)
      (ev := EvRemove (rc_path s) false) as [e He]; [|exact Hin|done|].
    { eapply run_sat_mono; [|apply run_control]. intros ??? H. apply H. }
    unfold run in Hr. congruence.
  - intros pc p Hin.
    pose proof (run_event_kinds w env0 path0 _ _ Hin eq_refl) as Hk. simpl in Hk.
    assert (Hpc : pc = pc_teardown).
    { assert (Hall : forallb (λ x : nat * ekind,
                       match x.2 with KRemove => Nat.eqb x.1 pc_teardown | _ => true end)
                       reference_kinds = true) by (by vm_compute).
      rewrite forallb_forall in Hall. apply Hall in Hk. by apply Nat.eqb_eq in Hk. }
    split; [done|]. subst pc.
    destruct (raised (run w env0 path0)) as [[pr e]|] eqn:Hr; [|done]. exfalso.
    destruct (run_executed w program 0 (fresh env0 path0)) as (n & Hex & Hn & Hra).
    fold (run w env0 path0) in Hex, Hra. rewrite Hr in Hra.
    pose proof Hin as Hin'. unfold run in Hin'. apply trace_pc in Hin' as [_ Hexe].
    fold (run w env0 path0) in Hexe. rewrite Hex in Hexe. apply in_seq in Hexe.
    assert (Hlen : length program = 133%nat) by (by vm_compute).
    assert (pr = pc_teardown) by (unfold pc_teardown in *; lia). subst pr.
    destruct (run_raised_at w env0 path0 _ _ Hr) as [_ Hf].
    by apply Hf in Hin.
Qed.

Lemma run_session_events w env0 path0 pc ev :
  In (pc, ev) (trace (run w env0 path0)) → session_ok w env0 pc ev.
Proof.
  intros Hin. unfold run in Hin.
  pose proof (run_sat_trace w (session_ok w env0) program 0 (fresh env0 path0)) as H.
  rewrite List.Forall_forall in H. apply (H ltac:(eapply run_sat_mono; [|apply run_session];
                                                    intros ??? H'; apply H') _ Hin).
Qed.

(** X3.  A run that completes ends in this state: the environment is
    the initial one with [GISBASE], the variables of the session start
    and the five variables the cells assign; the search path is the
    initial one with the toolkit's Python directory appended once;
    [gisbase] holds the stripped output of [grass --config path] and
    [rcfile] the path the session start returned; both flags of the
    scripting library are set. *)
Theorem completed_run_final_state w env0 path0 :
  raised (run w env0 path0) = None →
  finished w env0 path0 (final (run w env0 path0)).
Proof.
  unfold run. intros Hr.
  apply (completed_final w (finished w env0 path0) pc_teardown); [by vm_compute|by vm_compute| |done].
  eapply run_sat_mono; [|apply run_session]. intros ??? H. apply H.
Qed.

Lemma completed_run_final_state_witness :
  raised (run fair_world ∅ []) = None ∧
  finished fair_world ∅ [] (final (run fair_world ∅ [])).
Proof.
  assert (Hr : raised (run fair_world ∅ []) = None) by (vm_compute; reflexivity).
  split; [exact Hr|]. exact (completed_run_final_state fair_world ∅ [] Hr).
Defined.

(** X4.  Apart from the [echo] of the first cell, which runs in the
    initial environment, every shell command of a run is started in one
    and the same environment, the one the first four cells build. *)
Theorem commands_share_one_environment w env0 path0 pc1 cmd1 env1 status1 pc2 cmd2 env2 status2 :
  In (pc1, EvShell cmd1 env1 status1) (trace (run w env0 path0)) →
  In (pc2, EvShell cmd2 env2 status2) (trace (run w env0 path0)) →
  pc1 ≠ pc_demo_shell → pc2 ≠ pc_demo_shell →
  env1 = env2 ∧
  ∃ out s, config_path w = Some out ∧ init_call w (strip out) = Some s ∧
           env1 = session_env env0 out s.
Proof.
  intros H1 H2 Hp1 Hp2.
  apply run_session_events in H1, H2. simpl in H1, H2.
  destruct H1 as [[? _]|(out & s & Ho & Hs & ->)]; [done|].
  destruct H2 as [[? _]|(out' & s' & Ho' & Hs' & ->)]; [done|].
  rewrite Ho in Ho'. injection Ho' as <-. rewrite Hs in Hs'. injection Hs' as <-.
  split; [done|]. by exists out, s.
Qed.

(** X5.  The command that locates the toolkit is run in the initial
    environment; the session is started with its stripped output as
    [gisbase] and with the database, location and mapset written in the
    cell. *)
Theorem session_started_where_toolkit_was_found w env0 path0 pc ev :
  In (pc, ev) (trace (run w env0 path0)) →
  match ev with
  | EvSubprocess argv env out =>
      argv = ["grass"; "--config"; "path"] ∧ env = env0 ∧ out = config_path w
  | EvSessionInit gisbase dbase location mapset r =>
      ∃ out, config_path w = Some out ∧ gisbase = strip out ∧
             dbase = "/home/main/grassdata" ∧ location = "nc_spm_08_grass7" ∧
             mapset = "user1" ∧ r = init_call w gisbase
  | _ => True
  end.
Proof.
  intros Hin. apply run_session_events in Hin. by destruct ev.
Qed.

(** X6.  A shell command of a run is the line of its statement as it
    is written; only the [echo] of the first cell has a variable
    expanded, to the product the cell computed. *)
Theorem shell_commands_run_as_written w env0 path0 pc cmd env status :
  In (pc, EvShell cmd env status) (trace (run w env0 path0)) →
  ∃ line, statement pc = Some (Bang line) ∧
          cmd = if Nat.eqb pc pc_demo_shell then "echo " +:+ q "Answer is 42" else line.
Proof.
  intros Hin. apply run_shell_kinds in Hin; [|done]. simpl in Hin.
  assert (Hall : forallb (λ x : nat * ekind,
                   match x.2, statement x.1 with
                   | KShell c, Some (Bang line) =>
                       String.eqb c (if Nat.eqb x.1 pc_demo_shell
                                     then "echo " +:+ q "Answer is 42" else line)
                   | KShell _, _ => false
                   | _, _ => true
                   end) reference_kinds = true) by (by vm_compute).
  rewrite forallb_forall in Hall. apply Hall in Hin. simpl in Hin.
  destruct (statement pc) as [[]|]; try discriminate Hin.
  eexists. split; [done|]. by apply String.eqb_eq.
Qed.

(** X7.  What a run that completes puts out on the Python side: the
    line printed by the first cell, the value of the last expression of
    the third cell (the flag [gs.set_capture_stderr] replaced), the value
    of the last download call, and the ten images.  [os.remove] and the
    assignments show nothing. *)
Theorem outputs_of_a_completed_run w env0 path0 :
  raised (run w env0 path0) = None →
  List.filter (λ x : nat * ekind, is_output x.2)
    (map (λ x : nat * event, (x.1, kind_of x.2)) (trace (run w env0 path0))) =
  [ (3%nat, KStdout "Answer is 42");
    (18%nat, KDisplay (VBool false));
    (31%nat, KDisplay (VTuple [VStr "lostperson.txt"; VOpaque "httplib.HTTPMessage"]));
    (35%nat, KDisplay (VImage "map.png")); (43%nat, KDisplay (VImage "map.png"));
    (55%nat, KDisplay (VImage "map.png")); (62%nat, KDisplay (VImage "map.png"));
    (71%nat, KDisplay (VImage "map.png")); (81%nat, KDisplay (VImage "map.png"));
    (95%nat, KDisplay (VImage "map.png")); (106%nat, KDisplay (VImage "map.png"));
    (118%nat, KDisplay (VImage "map.png")); (131%nat, KDisplay (VImage "map.png")) ].
Proof. intros Hr. rewrite run_kinds by done. by vm_compute. Qed.

(** X8.  A command that is given a [.txt] file as an option value is
    run only after a download call has fetched that file: the trace
    holds, at an earlier statement, a download to that name that
    succeeded.  Each of the five text files is an option value of some
    command. *)
Theorem text_files_fetched_before_use w env0 path0 pc cmd env status f :
  In (pc, EvShell cmd env status) (trace (run w env0 path0)) →
  In f (file_arguments cmd) →
  In f text_files ∧
  ∃ p url body, (p < pc)%nat ∧
    In (p, EvDownload url f (Some body)) (trace (run w env0 path0)).
Proof.
  intros Hin Hf. pose proof Hin as Hk.
  apply run_shell_kinds in Hk; [|done]. simpl in Hk.
  assert (Hall : forallb (λ x : nat * ekind,
                   match x.2 with
                   | KShell c =>
                       forallb (λ f',
                         existsb (String.eqb f') text_files &&
                         existsb (λ y : nat * ekind,
                           Nat.ltb y.1 x.1 &&
                           match y.2 with
                           | KDownload _ f'' => String.eqb f'' f'
                           | _ => false
                           end) reference_kinds) (file_arguments c)
                   | _ => true
                   end) reference_kinds = true) by (by vm_compute).
  rewrite forallb_forall in Hall. apply Hall in Hk. cbn [fst snd] in Hk.
  rewrite forallb_forall in Hk. apply Hk in Hf.
  apply andb_prop in Hf as [Ht Hd].
  split.
  { apply existsb_exists in Ht as (f' & Hin' & Heq). apply String.eqb_eq in Heq. by subst. }
  apply existsb_exists in Hd as ([p k] & Hpk & Hd). simpl in Hd.
  apply andb_prop in Hd as [Hlt Hd]. apply Nat.ltb_lt in Hlt.
  destruct k as [| | | |url f'| | |]; try discriminate Hd.
  apply String.eqb_eq in Hd. subst f'.
  unfold run in *.
  destruct (earlier_statements_ran w kinds_at program 0 (fresh env0 path0)) with
    (pc := pc) (ev := EvShell cmd env status) (p := p) (kd := KDownload url f)
    as (ev' & Hev & Hkd); [|done|lia|by apply in_reference_kinds_at|].
  { eapply run_sat_mono; [|apply run_control]. intros ??? H. apply H. }
  destruct ev'; try discriminate Hkd. simpl in Hkd. injection Hkd as -> ->.
  destruct body as [body|].
  { by exists p, url, body. }
  exfalso.
  destruct (failed_call_raises w program 0 (fresh env0 path0)) with (p := p)
    (ev := EvDownload url f None) as [e He]; [|exact Hev|done|].
  { eapply run_sat_mono; [|apply run_control]. intros ??? H. apply H. }
  destruct (run_executed w program 0 (fresh env0 path0)) as (n & Hex & _ & Hra).
  rewrite He in Hra. apply trace_pc in Hin as [_ Hin]. rewrite Hex in Hin.
  apply in_seq in Hin. lia.
Qed.

Lemma every_text_file_is_used :
  forallb (λ f, existsb (λ x : bool * stmt,
                  match x.2 with
                  | Bang line => existsb (String.eqb f) (file_arguments line)
                  | _ => false
                  end) program) text_files = true.
Proof. by vm_compute. Qed.

(** X9.  A cell run alone on a fresh kernel: when the cell looks up a
    name that no earlier statement of the cell binds, it raises
    [NameError] for that name at that statement, after the statements
    before it have run; the other cells, the session start and the
    download cell apart, run to their end. *)
Theorem cell_alone_raises_at_first_unbound_name w env0 path0 j :
  (j < length cells)%nat →
  match first_unbound (cell_at j) with
  | Some (i, x) =>
      raised (run_alone w env0 path0 j) = Some (i, NameError x) ∧
      executed (run_alone w env0 path0 j) = seq 0 (S i)
  | None =>
      j ≠ 1%nat → j ≠ 4%nat →
      raised (run_alone w env0 path0 j) = None ∧
      executed (run_alone w env0 path0 j) = seq 0 (length (cell_at j))
  end.
Proof.
  intros Hj.
  do 30 (destruct j as [|j];
    [ match goal with
      | |- context [first_unbound ?c] =>
          let v := eval vm_compute in (first_unbound c) in
          change (first_unbound c) with v
      end;
      cbv beta iota;
      first [ intros H1 H4;
              first [ exfalso; apply H1; reflexivity
                    | exfalso; apply H4; reflexivity
                    | vm_compute; split; reflexivity ]
            | vm_compute; split; reflexivity ]
    | ]).
  exfalso. vm_compute in Hj. lia.
Qed.

Lemma fair_run_completes : raised (run fair_world ∅ []) = None.
Proof. by vm_compute. Qed.

Lemma commands_share_one_environment_witness :
  In (33%nat, EvShell "r.buffer lakes output=lakes_buff distances=60,120,240,500" fair_env 0)
     (trace (run fair_world ∅ [])) ∧
  In (34%nat, EvShell "d.rast lakes_buff" fair_env 0) (trace (run fair_world ∅ [])) ∧
  fair_env = fair_env.
Proof.
  assert (H1 : In (33%nat, EvShell "r.buffer lakes output=lakes_buff distances=60,120,240,500"
                             fair_env 0) (trace (run fair_world ∅ []))).
  { apply nth_error_In with (n := 16%nat). vm_compute. reflexivity. }
  assert (H2 : In (34%nat, EvShell "d.rast lakes_buff" fair_env 0)
                  (trace (run fair_world ∅ []))).
  { apply nth_error_In with (n := 17%nat). vm_compute. reflexivity. }
  split; [exact H1|]. split; [exact H2|].
  refine (proj1 (commands_share_one_environment fair_world ∅ [] _ _ _ _ _ _ _ _ H1 H2 _ _));
    unfold pc_demo_shell; lia.
Defined.

Lemma session_started_where_toolkit_was_found_witness :
  In (14%nat, EvSessionInit "/usr/lib/grass72" "/home/main/grassdata" "nc_spm_08_grass7"
                "user1" (Some fair_session))
     (trace (run fair_world ∅ [])) ∧
  ∃ out, config_path fair_world = Some out ∧ "/usr/lib/grass72" = strip out ∧
         "/home/main/grassdata" = "/home/main/grassdata" ∧
         "nc_spm_08_grass7" = "nc_spm_08_grass7" ∧ "user1" = "user1" ∧
         Some fair_session = init_call fair_world "/usr/lib/grass72".
Proof.
  assert (H : In (14%nat, EvSessionInit "/usr/lib/grass72" "/home/main/grassdata"
                            "nc_spm_08_grass7" "user1" (Some fair_session))
                 (trace (run fair_world ∅ []))).
  { apply nth_error_In with (n := 3%nat). vm_compute. reflexivity. }
  split; [exact H|].
  exact (session_started_where_toolkit_was_found fair_world ∅ [] _ _ H).
Defined.

Lemma shell_commands_run_as_written_witness :
  In (4%nat, EvShell ("echo " +:+ q "Answer is 42") ∅ 0) (trace (run fair_world ∅ [])) ∧
  ∃ line, statement 4 = Some (Bang line) ∧
          "echo " +:+ q "Answer is 42" =
          if Nat.eqb 4 pc_demo_shell then "echo " +:+ q "Answer is 42" else line.
Proof.
  assert (H : In (4%nat, EvShell ("echo " +:+ q "Answer is 42") ∅ 0)
                 (trace (run fair_world ∅ []))).
  { apply nth_error_In with (n := 1%nat). vm_compute. reflexivity. }
  split; [exact H|].
  exact (shell_commands_run_as_written fair_world ∅ [] _ _ _ _ H).
Defined.

Lemma outputs_of_a_completed_run_witness :
  raised (run fair_world ∅ []) = None ∧
  length (List.filter (λ x : nat * ekind, is_output x.2)
            (map (λ x : nat * event, (x.1, kind_of x.2)) (trace (run fair_world ∅ []))))
  = 13%nat.
Proof.
  split; [exact fair_run_completes|].
  rewrite (outputs_of_a_completed_run fair_world ∅ [] fair_run_completes). reflexivity.
Defined.

Lemma text_files_fetched_before_use_witness :
  In (50%nat, EvShell "r.category noise rules=noise_cats.txt separator=:" fair_env 0)
     (trace (run fair_world ∅ [])) ∧
  In "noise_cats.txt" (file_arguments "r.category noise rules=noise_cats.txt separator=:") ∧
  ∃ p url body, (p < 50)%nat ∧
    In (p, EvDownload url "noise_cats.txt" (Some body)) (trace (run fair_world ∅ [])).
Proof.
  assert (H : In (50%nat, EvShell "r.category noise rules=noise_cats.txt separator=:" fair_env 0)
                 (trace (run fair_world ∅ []))).
  { apply nth_error_In with (n := 35%nat). vm_compute. reflexivity. }
  assert (Hf : In "noise_cats.txt"
                  (file_arguments "r.category noise rules=noise_cats.txt separator=:")).
  { vm_compute. by left. }
  split; [exact H|]. split; [exact Hf|].
  exact (proj2 (text_files_fetched_before_use fair_world ∅ [] _ _ _ _ _ H Hf)).
Defined.

Lemma cell_alone_raises_at_first_unbound_name_witness :
  (5 < length cells)%nat ∧
  raised (run_alone fair_world ∅ [] 5) = Some (3%nat, NameError "Image") ∧
  executed (run_alone fair_world ∅ [] 5) = [0; 1; 2; 3]%nat.
Proof.
  assert (H : (5 < length cells)%nat) by (vm_compute; lia).
  split; [exact H|].
  exact (cell_alone_raises_at_first_unbound_name fair_world ∅ [] 5 H).
Defined.

(** X10.  When the cell that starts the session is run again after the
    first three cells and completes, the search path has the toolkit's
    Python directory appended once more, [gisbase] and [rcfile] are bound
    to the new values, and nothing is removed: the rc file of the session
    before stays. *)
Theorem session_start_run_again w t st :
  started st →
  raised (run_from w t (mark_last cell_bootstrap) st) = None →
  restarted w t st (final (run_from w t (mark_last cell_bootstrap) st)) ∧
  Forall (λ x : nat * event, is_remove x.2 = false)
    (trace (run_from w t (mark_last cell_bootstrap) st)).
Proof.
  intros Hst Hr. pose proof (bootstrap_restarts w t st Hst) as H. split.
  - apply (completed_final w (restarted w t st) (9 + t)); [done|simpl; lia| |done].
    eapply run_sat_mono; [|exact H]. intros ??? H'. apply H'.
  - apply (run_sat_trace w (λ _ ev, is_remove ev = false)).
    eapply run_sat_mono; [|exact H]. intros ??? H'. apply H'.
Qed.

Lemma session_start_run_again_witness :
  started (final (run_from fair_world 0 startup (fresh ∅ []))) ∧
  sys_path (final (run_from fair_world 19 (mark_last cell_bootstrap)
                     (final (run_from fair_world 0 startup (fresh ∅ [])))))
  = ["/usr/lib/grass72/etc/python"; "/usr/lib/grass72/etc/python"].
Proof.
  assert (Hs : started (final (run_from fair_world 0 startup (fresh ∅ []))))
    by (apply startup_started; vm_compute; reflexivity).
  assert (Hr : raised (run_from fair_world 19 (mark_last cell_bootstrap)
                         (final (run_from fair_world 0 startup (fresh ∅ [])))) = None)
    by (vm_compute; reflexivity).
  split; [exact Hs|].
  destruct (proj1 (session_start_run_again fair_world 19 _ Hs Hr))
    as (out & s & Ho & _ & Hp & _).
  rewrite Hp. injection Ho as <-. vm_compute. reflexivity.
Defined.

End NotebookMore.

(** * Layers from one command to the next *)

Section LayerFacts.
Import Py Notebook.

(** X19.  A command that names a layer some command of the notebook
    writes is run after the command that writes it, or writes it
    itself.  The one exception is [roadsmajor], which the road buffers
    of statement 47 read before statement 120 writes a raster of that
    name. *)
Theorem layers_produced_before_use w env0 path0 pc cmd env status n :
  In (pc, EvShell cmd env status) (trace (run w env0 path0)) →
  In n (tokens cmd) → In n produced_names →
  (pc = 47%nat ∧ n = "roadsmajor") ∨ In n (produced cmd) ∨
  ∃ p cmd' env' status', (p < pc)%nat ∧ In n (produced cmd') ∧
    In (p, EvShell cmd' env' status') (trace (run w env0 path0)).
Proof.
  intros Hin Hn Hp. pose proof Hin as Hk.
  apply run_shell_kinds in Hk; [|done]. cbn [kind_of] in Hk.
  assert (Hall : forallb (λ x : nat * ekind,
                   match x.2 with
                   | KShell c =>
                       forallb (λ n',
                         negb (existsb (String.eqb n') produced_names)
                         || (Nat.eqb x.1 47 && String.eqb n' "roadsmajor")
                         || existsb (String.eqb n') (produced c)
                         || existsb (λ y : nat * ekind,
                              Nat.ltb y.1 x.1 &&
                              match y.2 with
                              | KShell c' => existsb (String.eqb n') (produced c')
                              | _ => false
                              end) reference_kinds) (tokens c)
                   | _ => true
                   end) reference_kinds = true) by (by vm_compute).
  rewrite forallb_forall in Hall. apply Hall in Hk. cbn [fst snd] in Hk.
  rewrite forallb_forall in Hk. apply Hk in Hn.
  assert (Hmem : ∀ l, existsb (String.eqb n) l = true ↔ In n l).
  { intros l. rewrite existsb_exists. split.
    - intros (x & Hx & Heq). apply String.eqb_eq in Heq. by subst.
    - intros Hx. exists n. split; [done|apply String.eqb_refl]. }
  apply orb_prop in Hn as [Hn|Hn]; [apply orb_prop in Hn as [Hn|Hn];
    [apply orb_prop in Hn as [Hn|Hn]|]|].
  - apply negb_true_iff in Hn. apply Hmem in Hp. congruence.
  - apply andb_prop in Hn as [H1 H2]. left.
    split; [by apply Nat.eqb_eq|by apply String.eqb_eq].
  - right. left. by apply Hmem.
  - right. right.
    apply existsb_exists in Hn as ([p k] & Hpk & Hd). cbn [fst snd] in Hd.
    apply andb_prop in Hd as [Hlt Hd]. apply Nat.ltb_lt in Hlt.
    destruct k as [|c'| | | | | |]; try discriminate Hd.
    apply Hmem in Hd. unfold run in *.
    destruct (earlier_statements_ran w kinds_at program 0 (fresh env0 path0)) with
      (pc := pc) (ev := EvShell cmd env status) (p := p) (kd := KShell c')
      as (ev' & Hev & Hkd); [|done|lia|by apply in_reference_kinds_at|].
    { eapply run_sat_mono; [|apply run_control]. intros ??? H. apply H. }
    destruct ev' as [|c'' env' status'| | | | | |]; try discriminate Hkd.
    cbn [kind_of] in Hkd. injection Hkd as ->.
    by exists p, c', env', status'.
Qed.

Lemma layers_produced_before_use_witness :
  In (34%nat, EvShell "d.rast lakes_buff" fair_env 0) (trace (run fair_world ∅ [])) ∧
  In "lakes_buff" (tokens "d.rast lakes_buff") ∧ In "lakes_buff" produced_names ∧
  ((34 = 47)%nat ∧ "lakes_buff" = "roadsmajor" ∨
   In "lakes_buff" (produced "d.rast lakes_buff") ∨
   ∃ p cmd' env' status', (p < 34)%nat ∧ In "lakes_buff" (produced cmd') ∧
     In (p, EvShell cmd' env' status') (trace (run fair_world ∅ []))).
Proof.
  assert (H : In (34%nat, EvShell "d.rast lakes_buff" fair_env 0)
                 (trace (run fair_world ∅ []))).
  { apply nth_error_In with (n := 17%nat). vm_compute. reflexivity. }
  assert (Ht : In "lakes_buff" (tokens "d.rast lakes_buff")).
  { vm_compute. right. by left. }
  assert (Hp : In "lakes_buff" produced_names).
  { vm_compute. by left. }
  split; [exact H|]. split; [exact Ht|]. split; [exact Hp|].
  exact (layers_produced_before_use fair_world ∅ [] _ _ _ _ _ H Ht Hp).
Defined.



End LayerFacts.

(** * The layers selected and combined by map algebra *)

Section AlgebraFacts.
Import Mapcalc Algebra.

Lemma algebra_statements :
  is_command (Notebook.statement 37) "developed_lake" developed_lake ∧
  is_command (Notebook.statement 48) "noise" noise ∧
  is_command (Notebook.statement 57) "schools_noise" schools_noise ∧
  is_command (Notebook.statement 101) "friction2" friction2.
Proof. repeat split; eexists; (split; [by vm_compute|by vm_compute]). Qed.

(** X20.  The layers [developed_lake] (statement 37) and [noise]
    (statement 48) hold the buffer layer on developed land, that is where
    the land use is of class 1 or 2, and are null everywhere else, also
    where the land use is null.  So over any cells the layer covers no
    more cells than the buffer layer does. *)
Theorem layer_on_developed_land (maps : gmap string raster) layer (lu r : raster) :
  maps !! "landuse96_28m" = Some lu → maps !! layer = Some r →
  (is_command (Notebook.statement 37) "developed_lake" (on_developed_land "lakes_buff") ∧
   is_command (Notebook.statement 48) "noise" (on_developed_land "roads_buffers")) ∧
  (∀ c, eval maps c (on_developed_land layer) =
        match lu c with
        | Some u => if developed u then r c else None
        | None => None
        end) ∧
  (∀ cells, (covered (λ c, eval maps c (on_developed_land layer)) cells
             ≤ covered r cells)%nat).
Proof.
  intros Hlu Hr. split; [split; apply algebra_statements|].
  assert (Hcell : ∀ c, eval maps c (on_developed_land layer) =
                       match lu c with
                       | Some u => if developed u then r c else None
                       | None => None
                       end).
  { intros c. unfold on_developed_land. cbn [eval]. unfold raster in *. rewrite Hlu, Hr.
    destruct (lu c) as [u|]; [|done].
    unfold developed, of_bool, apply_op.
    change (inject_Z 1) with 1%Q. change (inject_Z 2) with 2%Q.
    by destruct (Qeq_bool u 1), (Qeq_bool u 2). }
  split; [exact Hcell|].
  intros cells. unfold covered. induction cells as [|c cells IH]; [done|].
  cbn [List.filter]. rewrite Hcell.
  destruct (lu c) as [u|]; [destruct (developed u)|]; destruct (r c); cbn [length]; lia.
Qed.

Lemma layer_on_developed_land_witness :
  ({[ "landuse96_28m" := (λ _ : cell, Some (inject_Z 2));
      "lakes_buff" := (λ _ : cell, Some (inject_Z 240)) ]} : gmap string raster)
    !! "landuse96_28m" = Some (λ _ : cell, Some (inject_Z 2)) ∧
  eval ({[ "landuse96_28m" := (λ _ : cell, Some (inject_Z 2));
           "lakes_buff" := (λ _ : cell, Some (inject_Z 240)) ]} : gmap string raster)
       (0, 0) (on_developed_land "lakes_buff") = Some (inject_Z 240).
Proof.
  assert (H1 : ({[ "landuse96_28m" := (λ _ : cell, Some (inject_Z 2));
                   "lakes_buff" := (λ _ : cell, Some (inject_Z 240)) ]}
                  : gmap string raster) !! "landuse96_28m"
               = Some (λ _ : cell, Some (inject_Z 2))) by (vm_compute; reflexivity).
  assert (H2 : ({[ "landuse96_28m" := (λ _ : cell, Some (inject_Z 2));
                   "lakes_buff" := (λ _ : cell, Some (inject_Z 240)) ]}
                  : gmap string raster) !! "lakes_buff"
               = Some (λ _ : cell, Some (inject_Z 240))) by (vm_compute; reflexivity).
  split; [exact H1|].
  exact (proj1 (proj2 (layer_on_developed_land _ "lakes_buff" _ _ H1 H2)) (0, 0)).
Defined.

(** X21.  The layer [schools_noise] (statement 57) holds the capacity
    of a school, cut to an integer, where that integer is not zero and
    the road buffer is of class 2; it is null everywhere else, also where
    the capacity or the buffer is null. *)
Theorem schools_in_the_second_buffer (maps : gmap string raster) (cap rb : raster) c :
  maps !! "schoolscap_10m" = Some cap → maps !! "roads_buffers" = Some rb →
  is_command (Notebook.statement 57) "schools_noise" schools_noise ∧
  eval maps c schools_noise =
    match cap c, rb c with
    | Some v, Some b =>
        if truth (truncate v) && Qeq_bool b 2 then Some (truncate v) else None
    | _, _ => None
    end.
Proof.
  intros Hcap Hrb. split; [apply algebra_statements|].
  unfold schools_noise. cbn [eval]. unfold raster in *. rewrite Hcap, Hrb.
  destruct (cap c) as [v|]; [|done]. destruct (rb c) as [b|]; [|done].
  unfold of_bool, apply_op. change (inject_Z 2) with 2%Q.
  destruct (truth (truncate v)), (Qeq_bool b 2); reflexivity.
Qed.

Lemma schools_in_the_second_buffer_witness :
  ({[ "schoolscap_10m" := (λ _ : cell, Some (7 # 2)%Q);
      "roads_buffers" := (λ _ : cell, Some (inject_Z 2)) ]} : gmap string raster)
    !! "schoolscap_10m" = Some (λ _ : cell, Some (7 # 2)%Q) ∧
  eval ({[ "schoolscap_10m" := (λ _ : cell, Some (7 # 2)%Q);
           "roads_buffers" := (λ _ : cell, Some (inject_Z 2)) ]} : gmap string raster)
       (0, 0) schools_noise = Some (inject_Z 3).
Proof.
  assert (H1 : ({[ "schoolscap_10m" := (λ _ : cell, Some (7 # 2)%Q);
                   "roads_buffers" := (λ _ : cell, Some (inject_Z 2)) ]}
                  : gmap string raster) !! "schoolscap_10m"
               = Some (λ _ : cell, Some (7 # 2)%Q)) by (vm_compute; reflexivity).
  assert (H2 : ({[ "schoolscap_10m" := (λ _ : cell, Some (7 # 2)%Q);
                   "roads_buffers" := (λ _ : cell, Some (inject_Z 2)) ]}
                  : gmap string raster) !! "roads_buffers"
               = Some (λ _ : cell, Some (inject_Z 2))) by (vm_compute; reflexivity).
  split; [exact H1|].
  exact (proj2 (schools_in_the_second_buffer _ _ _ (0, 0) H1 H2)).
Defined.

(** X22.  With the speed layer as the speed step leaves it (the street
    speed, 5 where there is no street), the layer [friction2] (statement
    101) holds 0.1 on a street with a speed above 6 and the land friction
    everywhere else in the region: a cell without a street keeps its land
    friction, since the fill value 5 is not above 6, and so does a street
    with a speed of 6 or less. *)
Theorem friction_of_streets_and_land (ms : mapset) (tmp speed fr : raster) :
  rasters ms !! "streets_speed" = Some speed →
  rasters ms !! "friction" = Some fr →
  (∀ c, region ms c = true →
        speed c = match tmp c with None => Some (inject_Z 5) | Some v => Some v end) →
  is_command (Notebook.statement 101) "friction2" friction2 ∧
  ∃ ms2 f2,
    r_mapcalc "friction2" friction2 ms = Some ms2 ∧
    rasters ms2 !! "friction2" = Some f2 ∧
    ∀ c, region ms c = true →
         f2 c = match tmp c with
                | Some v => if Qle_bool v 6 then fr c else Some (dec_value 1 1)
                | None => fr c
                end.
Proof.
  intros Hs Hf Hspeed. split; [apply algebra_statements|]. unfold raster in *.
  unfold Algebra.r_mapcalc, friction2. cbn [Algebra.maps_of app forallb].
  rewrite !bool_decide_eq_true_2 by eauto. cbn [andb].
  eexists _, _. split; [reflexivity|]. split; [apply lookup_insert_eq|].
  intros c Hc. cbn [region]. rewrite Hc. cbn [Algebra.eval rasters].
  unfold raster in *. rewrite Hs, Hf, (Hspeed c Hc).
  unfold of_bool, apply_op. change (inject_Z 6) with 6%Q.
  destruct (tmp c) as [v|].
  - by destruct (Qle_bool v 6).
  - reflexivity.
Qed.

Lemma friction_of_streets_and_land_witness :
  rasters street_and_field !! "friction" = Some (λ c : cell, Some (inject_Z 3)) ∧
  ∃ ms2 f2,
    r_mapcalc "friction2" friction2 street_and_field = Some ms2 ∧
    rasters ms2 !! "friction2" = Some f2 ∧
    f2 (0, 0) = Some (dec_value 1 1) ∧ f2 (0, 1) = Some (inject_Z 3).
Proof.
  assert (H1 : rasters street_and_field !! "streets_speed"
               = Some (λ c : cell, if Z.eqb c.2 0 then Some (inject_Z 35)
                                   else Some (inject_Z 5)))
    by (vm_compute; reflexivity).
  assert (H2 : rasters street_and_field !! "friction" = Some (λ c : cell, Some (inject_Z 3)))
    by (vm_compute; reflexivity).
  assert (H3 : ∀ c, region street_and_field c = true →
                    (λ c : cell, if Z.eqb c.2 0 then Some (inject_Z 35) else Some (inject_Z 5)) c
                    = match street_speeds c with
                      | None => Some (inject_Z 5)
                      | Some v => Some v
                      end).
  { intros [x y] _. unfold street_speeds. cbn [snd]. by destruct (Z.eqb y 0). }
  split; [exact H2|].
  destruct (proj2 (friction_of_streets_and_land street_and_field street_speeds _ _ H1 H2 H3))
    as (ms2 & f2 & Ha & Hb & Hc).
  exists ms2, f2. split; [exact Ha|]. split; [exact Hb|].
  split; [exact (Hc (0, 0) eq_refl)|exact (Hc (0, 1) eq_refl)].
Defined.

End AlgebraFacts.

(** * White space and paths *)

Section StringFacts.
Import Py Notebook.

Lemma app_cons c (a b : string) : String c a +:+ b = String c (a +:+ b).
Proof. reflexivity. Qed.

Lemma app_empty (b : string) : "" +:+ b = b.
Proof. reflexivity. Qed.

Lemma lstrip_spec s :
  ∃ a, s = a +:+ lstrip s ∧ all_space a = true ∧
       match first_char (lstrip s) with Some c => is_space c = false | None => True end.
Proof.
  induction s as [|c s (a & Hs & Ha & Hc)]; [by exists ""|].
  cbn [lstrip]. destruct (is_space c) eqn:Hsp.
  - exists (String c a). rewrite app_cons, <- Hs. split; [done|]. split; [|done].
    unfold all_space in *. cbn [list_ascii_of_string forallb]. by rewrite Hsp.
  - exists "". rewrite app_empty. cbn [first_char]. done.
Qed.

Lemma rstrip_spec s :
  ∃ b, s = rstrip s +:+ b ∧ all_space b = true ∧
       match last_char (rstrip s) with Some c => is_space c = false | None => True end.
Proof.
  induction s as [|c s (b & Hs & Hb & Hc)]; [by exists ""|].
  cbn [rstrip]. destruct (rstrip s) as [|d t] eqn:Hr.
  - rewrite app_empty in Hs. subst b. destruct (is_space c) eqn:Hsp.
    + exists (String c s). rewrite app_empty. split; [done|]. split; [|done].
      unfold all_space in *. cbn [list_ascii_of_string forallb]. by rewrite Hsp.
    + exists s. rewrite app_cons, app_empty. cbn [last_char]. done.
  - exists b. rewrite app_cons, <- Hs. split; [done|]. split; [done|]. exact Hc.
Qed.

Lemma rstrip_first c s : is_space c = false → first_char (rstrip (String c s)) = Some c.
Proof. intros Hc. cbn [rstrip]. destruct (rstrip s); [by rewrite Hc|done]. Qed.

Lemma lstrip_id s :
  match first_char s with Some c => is_space c = false | None => True end → lstrip s = s.
Proof. destruct s as [|c s]; [done|]. cbn [first_char lstrip]. by intros ->. Qed.

Lemma rstrip_id s :
  match last_char s with Some c => is_space c = false | None => True end → rstrip s = s.
Proof.
  induction s as [|c s IH]; [done|]. destruct s as [|d s].
  - cbn [last_char rstrip]. by intros ->.
  - intros H. change (last_char (String c (String d s))) with (last_char (String d s)) in H.
    change (rstrip (String c (String d s))) with
      (match rstrip (String d s) with
       | EmptyString => if is_space c then EmptyString else String c EmptyString
       | t => String c t
       end).
    by rewrite (IH H).
Qed.

Lemma app_assoc_string (a b c : string) : (a +:+ b) +:+ c = a +:+ (b +:+ c).
Proof. induction a as [|x a IH]; [done|]. by rewrite !app_cons, IH. Qed.

(** X11.  [strip] takes white space off both ends and nothing else:
    the string is the stripped one between two runs of white space, the
    stripped string neither starts nor ends with white space, and
    stripping it again changes nothing. *)
Theorem strip_takes_white_space_off_both_ends s :
  (∃ a b, s = a +:+ strip s +:+ b ∧ all_space a = true ∧ all_space b = true) ∧
  match first_char (strip s) with Some c => is_space c = false | None => True end ∧
  match last_char (strip s) with Some c => is_space c = false | None => True end ∧
  strip (strip s) = strip s.
Proof.
  unfold strip.
  destruct (lstrip_spec s) as (a & Hs & Ha & Hf).
  destruct (rstrip_spec (lstrip s)) as (b & Ht & Hb & Hl).
  assert (Hfirst : match first_char (rstrip (lstrip s)) with
                   | Some c => is_space c = false
                   | None => True
                   end).
  { destruct (lstrip s) as [|c t] eqn:E; [done|]. simpl in Hf. by rewrite rstrip_first. }
  split; [|split; [done|split; [done|]]].
  - exists a, b. split; [|done]. by rewrite <- Ht.
  - rewrite (lstrip_id _ Hfirst). by apply rstrip_id.
Qed.

Lemma ends_with_slash_app x y :
  y ≠ "" → ends_with_slash (x +:+ y) = ends_with_slash y ∧ String.eqb (x +:+ y) "" = false.
Proof.
  intros Hy. induction x as [|c x [IH1 IH2]].
  - rewrite app_empty. split; [done|]. by destruct y.
  - rewrite app_cons. split; [|done].
    destruct (x +:+ y) eqn:E; [done|]. exact IH1.
Qed.

(** X12.  The directory appended to the search path is [gisbase]
    followed by [/etc/python]; when [gisbase] is empty or ends with a
    slash no slash is put in between. *)
Theorem toolkit_python_directory gisbase :
  join gisbase ["etc"; "python"] =
  if (String.eqb gisbase "" || ends_with_slash gisbase)%bool
  then gisbase +:+ "etc/python" else gisbase +:+ "/etc/python".
Proof.
  unfold join. cbn [fold_left starts_with_slash].
  destruct (String.eqb gisbase "" || ends_with_slash gisbase)%bool.
  - destruct (ends_with_slash_app gisbase "etc") as [-> ->]; [done|].
    cbn [ends_with_slash Ascii.eqb orb Bool.eqb]. by rewrite app_assoc_string.
  - destruct (ends_with_slash_app gisbase ("/" +:+ "etc")) as [-> ->]; [done|].
    change (ends_with_slash ("/" +:+ "etc")) with false. cbn [orb].
    rewrite app_assoc_string. reflexivity.
Qed.

End StringFacts.

(** * More on the speed and travel-time layers *)

Section MapcalcMore.
Import Mapcalc.




(** X13.  The travel-time layer, cell by cell: in the region, a cell
    without a street has the travel time of speed 5, a cell with a
    street of speed [v] has 0.018641 / [v], and a street of speed 0 gives
    a null cell; outside the region the layer is null. *)
Theorem travel_time_of_each_cell (ms : mapset) (tmp : raster) :
  rasters ms !! "streets_speedtmp" = Some tmp →
  ∃ ms2 tt,
    speed_then_travtime ms = Some ms2 ∧
    rasters ms2 !! "streets_travtime" = Some tt ∧
    (∀ c, tt c = if region ms c
                 then match tmp c with
                      | None => travel_time (inject_Z 5)
                      | Some v => travel_time v
                      end
                 else None) ∧
    (∀ c, tt c = None ↔ region ms c = false ∨ ∃ v, tmp c = Some v ∧ (v == 0)%Q).
Proof.
  intros Htmp. unfold raster in *.
  pose proof (r_mapcalc_streets_speed ms tmp Htmp) as H1.
  set (speed := λ c', if region ms c' then eval (rasters ms) c' streets_speed else None) in *.
  set (ms1 := {| region := region ms; rasters := <["streets_speed" := speed]> (rasters ms) |})
    in *.
  set (tt := λ c, if region ms1 c then eval (rasters ms1) c streets_travtime else None).
  assert (H2 : r_mapcalc "streets_travtime" streets_travtime ms1 =
               Some {| region := region ms1;
                       rasters := <["streets_travtime" := tt]> (rasters ms1) |}).
  { unfold r_mapcalc, streets_travtime. cbn [maps_of app forallb].
    rewrite bool_decide_eq_true_2; [done|]. exists speed. apply lookup_insert_eq. }
  assert (Htt : ∀ c, tt c = if region ms c
                            then match tmp c with
                                 | None => travel_time (inject_Z 5)
                                 | Some v => travel_time v
                                 end
                            else None).
  { intros c. unfold tt. cbn [region ms1]. destruct (region ms c) eqn:Hc; [|done].
    unfold streets_travtime. cbn [eval rasters ms1].
    replace (<["streets_speed" := speed]> (rasters ms) !! "streets_speed") with (Some speed)
      by (symmetry; apply lookup_insert_eq).
    unfold speed. rewrite Hc, (eval_streets_speed _ tmp c Htmp).
    by destruct (tmp c). }
  eexists _, tt. split; [unfold speed_then_travtime; rewrite H1; exact H2|].
  split; [apply lookup_insert_eq|]. split; [exact Htt|].
  intros c. rewrite Htt. destruct (region ms c); [|by split; [left|]].
  destruct (tmp c) as [v|].
  - unfold travel_time. destruct (Qeq_bool v 0) eqn:Hv.
    + split; [|done]. intros _. right. exists v. split; [done|]. by apply Qeq_bool_iff.
    + split; [done|]. intros [?|(v' & [= <-] & Hz)]; [done|].
      apply Qeq_bool_iff in Hz. congruence.
  - split; [by vm_compute|]. by intros [?|(v & ? & _)].
Qed.

Lemma travel_time_of_each_cell_witness :
  rasters two_cells !! "streets_speedtmp"
    = Some (λ c : cell, if Z.eqb c.2 0 then Some (inject_Z 35) else None) ∧
  ∃ ms2 tt,
    speed_then_travtime two_cells = Some ms2 ∧
    rasters ms2 !! "streets_travtime" = Some tt ∧
    tt (0, 0) = travel_time (inject_Z 35) ∧ tt (0, 1) = travel_time (inject_Z 5) ∧
    tt (1, 0) = None.
Proof.
  assert (H1 : rasters two_cells !! "streets_speedtmp"
               = Some (λ c : cell, if Z.eqb c.2 0 then Some (inject_Z 35) else None))
    by (vm_compute; reflexivity).
  split; [exact H1|].
  destruct (travel_time_of_each_cell two_cells _ H1) as (ms2 & tt & Ha & Hb & Hc & _).
  exists ms2, tt. split; [exact Ha|]. split; [exact Hb|].
  split; [exact (Hc (0, 0))|]. split; [exact (Hc (0, 1))|exact (Hc (1, 0))].
Defined.




End MapcalcMore.

(** * More on the fixture cycle of the example test class *)

Section GunittestMore.
Import Gunittest.

Lemma elem_of_keep (names : gset string) n :
  ¬ has_prefix n → n ∈ keep (prefix +:+ "*") names ↔ n ∈ names.
Proof.
  intros Hn. unfold keep. rewrite elem_of_filter. split; [by intros [_ ?]|].
  intros Hin. split; [|done].
  destruct (glob (prefix +:+ "*") n) eqn:Hg; [|done]. by apply glob_prefix in Hg.
Qed.

(** X16.  A test method leaves every map that is not a test map as it
    found it: a name that does not start with the test prefix is in the
    mapset after the cycle exactly when it was there before. *)
Theorem test_cycle_keeps_other_maps tk body ms ms1 n :
  runModule tk setUp ms = Some ms1 →
  ¬ has_prefix n →
  (n ∈ rasters (after_test tk body ms) ↔ n ∈ rasters ms) ∧
  (n ∈ vectors (after_test tk body ms) ↔ n ∈ vectors ms).
Proof.
  intros Hs Hn.
  assert (Hcycle : after_test tk body ms =
                   {| rasters := keep (prefix +:+ "*") (rasters ms1);
                      vectors := keep (prefix +:+ "*") (vectors ms1) |}).
  { unfold after_test, run_test. rewrite Hs, tearDown_spec. reflexivity. }
  destruct (setUp_creates tk ms ms1 Hs) as [Hr Hv].
  assert (Hsub : rasters ms ⊆ rasters ms1 ∧ vectors ms ⊆ vectors ms1).
  { revert Hs. unfold setUp. simpl. case_bool_decide; [|done]. intros [= <-]. simpl.
    split; intros x Hx; apply elem_of_union; by right. }
  destruct Hsub as [Hsr Hsv].
  rewrite Hcycle. simpl. rewrite !elem_of_keep by done. split; split.
  - intros Hin. destruct (decide (n ∈ rasters ms)); [done|]. exfalso. by apply Hn, Hr.
  - apply Hsr.
  - intros Hin. destruct (decide (n ∈ vectors ms)); [done|]. exfalso. by apply Hn, Hv.
  - apply Hsv.
Qed.

Lemma test_cycle_keeps_other_maps_witness :
  runModule two_viewsheds setUp class_fixture
    = Some {| rasters := {[prefix +:+ "output_viewshed_1"; prefix +:+ "output_viewshed_2";
                           "elevation"]};
              vectors := {[prefix +:+ "output_points"; prefix +:+ "input_points"]} |} ∧
  ¬ has_prefix "elevation" ∧
  "elevation" ∈ rasters (after_test two_viewsheds test_outputs_exists class_fixture).
Proof.
  assert (Hs : runModule two_viewsheds setUp class_fixture
    = Some {| rasters := {[prefix +:+ "output_viewshed_1"; prefix +:+ "output_viewshed_2";
                           "elevation"]};
              vectors := {[prefix +:+ "output_points"; prefix +:+ "input_points"]} |})
    by (vm_compute; reflexivity).
  assert (Hn : ¬ has_prefix "elevation") by (intros [rest Hr]; discriminate Hr).
  split; [exact Hs|]. split; [exact Hn|].
  apply (proj1 (test_cycle_keeps_other_maps two_viewsheds test_outputs_exists _ _ _ Hs Hn)).
  vm_compute. reflexivity.
Defined.




(** X18.  When the mapset held no raster with the test prefix before
    [setUp], [test_outputs_exists] passes exactly when [setUp] wrote ten
    distinct viewshed rasters. *)
Theorem outputs_test_counts_the_viewsheds tk ms ms1 :
  runModule tk setUp ms = Some ms1 →
  (∀ n, n ∈ rasters ms → ¬ has_prefix n) →
  test_outputs_exists tk ms1 = true ↔ size (viewsheds tk) = 10%nat.
Proof.
  unfold setUp. cbn [runModule]. case_bool_decide; [|done]. intros [= <-] Hno.
  unfold test_outputs_exists. cbn [rasters vectors].
  rewrite bool_decide_eq_true_2
    by (apply elem_of_union; left; by apply elem_of_singleton).
  rewrite andb_true_r.
  fold (viewsheds tk).
  assert (Hf : filter (λ n, glob (prefix +:+ "*") n = true) (viewsheds tk ∪ rasters ms)
               = viewsheds tk).
  { apply set_eq. intros n. rewrite elem_of_filter, elem_of_union. split.
    - intros [Hg [?|Hin]]; [done|]. apply glob_prefix in Hg. by apply Hno in Hin.
    - intros Hin. split; [|by left]. apply glob_prefix.
      unfold viewsheds in Hin.
      apply elem_of_list_to_set, list_elem_of_In, in_map_iff in Hin as (s & <- & _).
      by exists ("output_viewshed" +:+ s). }
  rewrite Hf. rewrite Nat.eqb_eq. split; by intros ->.
Qed.

Lemma outputs_test_counts_the_viewsheds_witness :
  (∀ n, n ∈ rasters class_fixture → ¬ has_prefix n) ∧
  ∃ ms1, runModule ten_viewsheds setUp class_fixture = Some ms1 ∧
         test_outputs_exists ten_viewsheds ms1 = true.
Proof.
  assert (Hno : ∀ n, n ∈ rasters class_fixture → ¬ has_prefix n).
  { intros n Hin [rest Hr]. unfold class_fixture in Hin. cbn [rasters] in Hin.
    apply elem_of_singleton in Hin. subst n. discriminate Hr. }
  split; [exact Hno|].
  destruct (runModule ten_viewsheds setUp class_fixture) as [ms1|] eqn:Hs;
    [|by vm_compute in Hs].
  exists ms1. split; [reflexivity|].
  apply (outputs_test_counts_the_viewsheds ten_viewsheds class_fixture ms1 Hs Hno).
  vm_compute. reflexivity.
Defined.

End GunittestMore.
